(** * svg-render-service: a shallow embedding of [app/main.py] and [app/config.py]

    The development follows the service leaf-first: the Python run-time
    notions the code relies on (exceptions, [round], [/], string methods,
    the [re] fragment of [_LENGTH_RE]), then the configuration record,
    the scale resolver, the length parser and dimension resolver, the
    bounded fetcher, the pruner and the [/render] route.

    Numbers.  Python [float] values are modelled by exact rationals [Q]:
    every finite float is a rational and the comparisons of the code are
    exact.  Rounding error, overflow to [inf] and [nan] are outside the
    model; statements over [Q] are statements about the resolver's
    arithmetic on real numbers.  Python [int] values are [Z]. *)

From Stdlib Require Import ZArith QArith Qround Lqa Lia List Bool.
From Stdlib.Strings Require Import Ascii String Byte.
Import ListNotations.

Local Open Scope Q_scope.

(** ** Python run-time *)

Module Py.

(** Transport failures of the [requests] library.  All of them are
    subclasses of [requests.RequestException]. *)
Inductive request_error : Type :=
| ConnectionError
| ReadTimeout
| HTTPError (status : Z)
| ChunkedEncodingError
| InvalidURL.

(** The exception classes the handlers of [main.py] tell apart. *)
Inductive exn : Type :=
| ValueError (msg : string)
| ZeroDivisionError
| RequestException (e : request_error)
| GoogleAPIError (msg : string)
| OSError (msg : string)
| OtherException (msg : string).

Inductive result (A : Type) : Type :=
| Ok (a : A)
| Raise (e : exn).
Arguments Ok {A} a.
Arguments Raise {A} e.

(** [isinstance] for the classes that appear in [except] clauses.
    [requests.RequestException] derives from [IOError], that is
    [OSError]. *)
Definition is_ValueError (e : exn) : bool :=
  match e with ValueError _ => true | _ => false end.
Definition is_RequestException (e : exn) : bool :=
  match e with RequestException _ => true | _ => false end.
Definition is_GoogleAPIError (e : exn) : bool :=
  match e with GoogleAPIError _ => true | _ => false end.
Definition is_OSError (e : exn) : bool :=
  match e with OSError _ | RequestException _ => true | _ => false end.

(** [a < b] on floats. *)
Definition Qlt_bool (a b : Q) : bool := negb (Qle_bool b a).

(** [max(a, b)]: the first argument unless the second is larger. *)
Definition max (a b : Q) : Q := if Qlt_bool a b then b else a.

(** [round(x)] on a float: to the nearest integer, ties to even. *)
Definition round (x : Q) : Z :=
  let f := Qfloor x in
  match Qcompare (x - inject_Z f) (1 # 2) with
  | Lt => f
  | Gt => (f + 1)%Z
  | Eq => if Z.even f then f else (f + 1)%Z
  end.

End Py.
Import Py.

(** ** Arithmetic with a record of the divisors

    [_compute_scale] divides three times.  A computation of type
    [traced A] carries the divisors of the divisions it has executed, in
    order, and either a value or the exception that stopped it;
    [py_div a b] records [b] and raises [ZeroDivisionError] on [b = 0]. *)

Definition traced (A : Type) : Type := (list Q * result A)%type.

Definition ret {A : Type} (a : A) : traced A := ([], Ok a).

Definition bind {A B : Type} (m : traced A) (f : A -> traced B) : traced B :=
  match m with
  | (l, Ok a) => let (l', r) := f a in (l ++ l', r)
  | (l, Raise e) => (l, Raise e)
  end.

Notation "x <- m ;; k" := (bind m (fun x => k))
  (at level 61, m at next level, right associativity).

Definition py_div (a b : Q) : traced Q :=
  ([b], if Qeq_bool b 0 then Raise ZeroDivisionError else Ok (a / b)).

Definition outcome {A : Type} (m : traced A) : result A := snd m.

(** ** Configuration ([config.py]) *)

(** [Settings]: the frozen dataclass.  [_get_int_from_env] accepts any
    integer, so no field is constrained. *)
Record Settings : Type := mkSettings {
  bucket_name : string;
  api_key : option string;
  request_timeout_seconds : Z;
  max_svg_bytes : Z;
  min_output_width : Z;
  max_output_width : Z;
  max_output_height : Z;
  signed_url_ttl_seconds : Z;
  prune_after_seconds : Z
}.

(** The defaults of [config.py], with an API key set. *)
Definition default_settings : Settings :=
  {| bucket_name := "svg-render-service";
     api_key := Some "secret"%string;
     request_timeout_seconds := 10;
     max_svg_bytes := 5 * 1024 * 1024;
     min_output_width := 512;
     max_output_width := 4096;
     max_output_height := 4096;
     signed_url_ttl_seconds := 3600;
     prune_after_seconds := 24 * 3600 |}.


(** ** Scale resolver ([_compute_scale]) *)

Section ScaleResolver.

Variable settings : Settings.

Local Abbreviation min_w := (inject_Z (min_output_width settings)).
Local Abbreviation max_w := (inject_Z (max_output_width settings)).
Local Abbreviation max_h := (inject_Z (max_output_height settings)).

(** Lines 90-92: a non-positive side replaces both sides by
    [float(settings.min_output_width)]. *)
Definition fallback_canvas (width height : Q) : Q * Q :=
  if Qle_bool width 0 || Qle_bool height 0
  then (min_w, min_w)
  else (width, height).

(** Lines 96-97. *)
Definition min_width_step (width scale : Q) : traced Q :=
  if Qlt_bool width min_w
  then q <- py_div min_w width ;; ret (Py.max scale q)
  else ret scale.

(** Lines 99-100. *)
Definition max_width_step (width scale : Q) : traced Q :=
  if Qlt_bool max_w (width * scale)
  then py_div max_w width
  else ret scale.

(** Lines 102-103. *)
Definition max_height_step (height scale : Q) : traced Q :=
  if Qlt_bool max_h (height * scale)
  then py_div max_h height
  else ret scale.

(** Lines 94-103: the value of [scale] when line 105 is reached, on a
    canvas that has already been through [fallback_canvas]. *)
Definition resolve_scale (width height : Q) : traced Q :=
  scale <- min_width_step width 1 ;;
  scale <- max_width_step width scale ;;
  max_height_step height scale.

(** Lines 105-106. *)
Definition scaled_size (width height scale : Q) : Z * Z :=
  (Z.max 1 (Py.round (width * scale)), Z.max 1 (Py.round (height * scale))).

Definition _compute_scale (width height : Q) : traced (Z * Z) :=
  let (width, height) := fallback_canvas width height in
  scale <- resolve_scale width height ;;
  ret (scaled_size width height scale).

End ScaleResolver.

(** ** Text

    A Python [str] is a sequence of code points.  The model keeps the
    code points below 256 (Latin-1), which [ascii] enumerates; the
    character classes below are Python's on that range. *)

Definition pystr : Type := list ascii.

Definition lit (s : string) : pystr := list_ascii_of_string s.

Definition code (c : ascii) : N := N_of_ascii c.

Definition in_range (lo hi n : N) : bool := ((lo <=? n) && (n <=? hi))%N.

(** [str.isspace] and the class [\s] of a [str] pattern. *)
Definition is_space (c : ascii) : bool :=
  in_range 9 13 (code c) || in_range 28 32 (code c)
  || (code c =? 133)%N || (code c =? 160)%N.

(** The class [\d] of a [str] pattern. *)
Definition is_digit (c : ascii) : bool := in_range 48 57 (code c).

Definition is_sign (c : ascii) : bool :=
  Ascii.eqb c "-" || Ascii.eqb c "+".

Definition is_dot (c : ascii) : bool := Ascii.eqb c ".".

Definition is_comma (c : ascii) : bool := Ascii.eqb c ",".

Fixpoint str_eqb (a b : pystr) : bool :=
  match a, b with
  | [], [] => true
  | x :: a', y :: b' => Ascii.eqb x y && str_eqb a' b'
  | _, _ => false
  end.

Fixpoint drop_while (p : ascii -> bool) (s : pystr) : pystr :=
  match s with
  | c :: s' => if p c then drop_while p s' else s
  | [] => []
  end.

Fixpoint take_while (p : ascii -> bool) (s : pystr) : pystr :=
  match s with
  | c :: s' => if p c then c :: take_while p s' else []
  | [] => []
  end.

(** [s.strip()] *)
Definition strip (s : pystr) : pystr :=
  rev (drop_while is_space (rev (drop_while is_space s))).

Definition lower_char (c : ascii) : ascii :=
  if in_range 65 90 (code c)
     || (in_range 192 222 (code c) && negb (code c =? 215)%N)
  then ascii_of_N (code c + 32)
  else c.

(** [s.lower()] *)
Definition lower (s : pystr) : pystr := map lower_char s.

Fixpoint startswith (s prefix : pystr) {struct prefix} : bool :=
  match prefix, s with
  | [], _ => true
  | p :: prefix', c :: s' => Ascii.eqb p c && startswith s' prefix'
  | _ :: _, [] => false
  end.

(** [s.endswith(suffix)] *)
Definition endswith (s suffix : pystr) : bool :=
  startswith (rev s) (rev suffix).

(** A [dict] with [str] keys, as the literal lists its items. *)
Fixpoint dict_get {V : Type} (d : list (pystr * V)) (key : pystr) : option V :=
  match d with
  | [] => None
  | (k, v) :: d' => if str_eqb k key then Some v else dict_get d' key
  end.

(** *** The fragment of [re] that [_LENGTH_RE] is written in

    A pattern is a sequence of character classes, each under a greedy
    quantifier.  [match_atoms] is the backtracking matcher anchored at
    the start of the text: it returns the text consumed by each atom of
    the first successful alternative, in Python's order of preference
    (longest repetition first), and the unread rest. *)

Inductive quantifier : Type :=
| Once          (* c  *)
| Optional      (* c? *)
| ZeroOrMore    (* c* *)
| OneOrMore.    (* c+ *)

Record atom : Type := mkAtom { class : ascii -> bool; quant : quantifier }.

Definition submatches : Type := (list pystr * pystr)%type.

Definition consumed (text : pystr) (r : option submatches) : option submatches :=
  match r with
  | Some (groups, rest) => Some (text :: groups, rest)
  | None => None
  end.

Definition extend (c : ascii) (r : option submatches) : option submatches :=
  match r with
  | Some (text :: groups, rest) => Some ((c :: text) :: groups, rest)
  | _ => None
  end.

(** [cls*] followed by the continuation [k]: take the character when
    the class allows it and the whole pattern still matches, otherwise
    give it back and try [k] here. *)
Fixpoint repeat_greedy (cls : ascii -> bool) (k : pystr -> option submatches)
         (s : pystr) : option submatches :=
  match s with
  | c :: s' =>
      if cls c
      then match extend c (repeat_greedy cls k s') with
           | Some r => Some r
           | None => consumed [] (k s)
           end
      else consumed [] (k s)
  | [] => consumed [] (k s)
  end.

Fixpoint match_atoms (atoms : list atom) (s : pystr) : option submatches :=
  match atoms with
  | [] => Some ([], s)
  | a :: atoms' =>
      let k := match_atoms atoms' in
      match quant a with
      | Once =>
          match s with
          | c :: s' => if class a c then consumed [c] (k s') else None
          | [] => None
          end
      | Optional =>
          match s with
          | c :: s' =>
              if class a c
              then match consumed [c] (k s') with
                   | Some r => Some r
                   | None => consumed [] (k s)
                   end
              else consumed [] (k s)
          | [] => consumed [] (k s)
          end
      | ZeroOrMore => repeat_greedy (class a) k s
      | OneOrMore =>
          match s with
          | c :: s' => if class a c then extend c (repeat_greedy (class a) k s') else None
          | [] => None
          end
      end
  end.

(** A match object of a pattern with one group: [group(1)] and [end()]. *)
Record Match : Type := mkMatch { group1 : pystr; match_end : nat }.

(** [_LENGTH_RE = re.compile(r"^\s*([-+]?\d*\.?\d+)")] *)
Definition _LENGTH_RE : list atom :=
  [ mkAtom is_space ZeroOrMore;
    mkAtom is_sign Optional;
    mkAtom is_digit ZeroOrMore;
    mkAtom is_dot Optional;
    mkAtom is_digit OneOrMore ].

(** [_LENGTH_RE.match(raw_value)]: the group spans the last four atoms. *)
Definition _LENGTH_RE_match (raw_value : pystr) : option Match :=
  match match_atoms _LENGTH_RE raw_value with
  | Some ([blank; sign; whole; dot; digits], _) =>
      let token := sign ++ whole ++ dot ++ digits in
      Some (mkMatch token (List.length blank + List.length token))
  | _ => None
  end.

(** *** [float(text)] on decimal literals

    [sign? digits* .? digits*] with at least one digit; [None] stands
    for [ValueError].  Exponents, [inf], [nan], underscores and
    surrounding blanks, which [float] also reads, never occur in a
    token matched by [_LENGTH_RE]. *)

Definition digit_value (c : ascii) : Z := (Z.of_N (code c) - 48)%Z.

Fixpoint digits_value (acc : Z) (ds : pystr) : Z :=
  match ds with
  | [] => acc
  | d :: ds' => digits_value (10 * acc + digit_value d)%Z ds'
  end.

Definition unsigned_float (body : pystr) : option Q :=
  let whole := take_while is_digit body in
  let after := drop_while is_digit body in
  let fraction :=
    match after with
    | c :: after' => if is_dot c then take_while is_digit after' else []
    | [] => []
    end in
  let rest :=
    match after with
    | c :: after' => if is_dot c then drop_while is_digit after' else after
    | [] => []
    end in
  match rest, (whole ++ fraction)%list with
  | [], _ :: _ =>
      Some (inject_Z (digits_value 0 (whole ++ fraction))
            / inject_Z (10 ^ Z.of_nat (List.length fraction)))
  | _, _ => None
  end.

Definition py_float (text : pystr) : option Q :=
  match text with
  | c :: body =>
      if Ascii.eqb c "-" then option_map Qopp (unsigned_float body)
      else if Ascii.eqb c "+" then unsigned_float body
      else unsigned_float text
  | [] => None
  end.

(** ** Exceptions without a trace: [result] as a monad *)

Definition rbind {A B : Type} (m : result A) (f : A -> result B) : result B :=
  match m with
  | Ok a => f a
  | Raise e => Raise e
  end.

Notation "x <~ m ;; k" := (rbind m (fun x => k))
  (at level 61, m at next level, right associativity).

(** ** Unit converter and dimension resolver *)

Definition _SVG_UNIT_TO_PX : list (pystr * Q) :=
  [ (lit "", 1);
    (lit "px", 1);
    (lit "pt", 96 / 72);
    (lit "pc", 16);
    (lit "mm", 96 / (254 # 10));
    (lit "cm", 96 / (254 # 100));
    (lit "in", 96) ].

(** The unit text of line 120: [raw_value[match.end():].strip().lower()]. *)
Definition unit_of (raw_value : pystr) (m : Match) : pystr :=
  lower (strip (skipn (match_end m) raw_value)).

Definition _parse_svg_length (raw_value : option pystr) : result Q :=
  match raw_value with
  | None | Some [] => Ok 0
  | Some raw_value =>
      match _LENGTH_RE_match raw_value with
      | None => Ok 0
      | Some m =>
          match py_float (group1 m) with
          | None => Raise (ValueError "could not convert string to float")
          | Some value =>
              let unit := unit_of raw_value m in
              if endswith unit (lit "%") then Ok 0
              else match dict_get _SVG_UNIT_TO_PX unit with
                   | Some factor => Ok (value * factor)
                   | None => Ok value
                   end
          end
      end
  end.

(** [re.split(pattern, s)] for a pattern [[class]+]: the pieces between
    the maximal runs of separators, empty pieces at the ends included. *)
Fixpoint re_split (sep : ascii -> bool) (in_run : bool) (piece : pystr)
         (s : pystr) : list pystr :=
  match s with
  | [] => [rev piece]
  | c :: s' =>
      if sep c
      then if in_run then re_split sep true piece s'
           else rev piece :: re_split sep true [] s'
      else re_split sep false (c :: piece) s'
  end.

Definition is_nonempty (s : pystr) : bool :=
  match s with [] => false | _ :: _ => true end.

(** Line 137. *)
Definition viewbox_components (view_box : pystr) : list pystr :=
  filter is_nonempty
    (re_split (fun c => is_space c || is_comma c) false [] (strip view_box)).

(** The parsed document, as far as the service reads it: the attributes
    of the root element, looked up with [tree.get(name)]. *)
Definition Tree : Type := list (pystr * pystr).

Definition tree_get (tree : Tree) (name : string) : option pystr :=
  dict_get tree (lit name).

Definition _extract_svg_dimensions (tree : Tree) : result (Q * Q) :=
  width <~ _parse_svg_length (tree_get tree "width") ;;
  height <~ _parse_svg_length (tree_get tree "height") ;;
  match tree_get tree "viewBox" with
  | None | Some [] => Ok (width, height)
  | Some view_box =>
      match viewbox_components view_box with
      | [_; _; viewbox_width; viewbox_height] =>
          width <~ (if Qle_bool width 0
                    then _parse_svg_length (Some viewbox_width)
                    else Ok width) ;;
          height <~ (if Qle_bool height 0
                     then _parse_svg_length (Some viewbox_height)
                     else Ok height) ;;
          Ok (width, height)
      | _ => Ok (width, height)
      end
  end.

(** ** Bytes *)

Definition bytes : Type := list byte.

(** The blanks of [bytes.strip()]: space, [\t], [\n], [\v], [\f], [\r]. *)
Definition is_bytes_space (b : byte) : bool :=
  in_range 9 13 (Byte.to_N b) || (Byte.to_N b =? 32)%N.

Fixpoint bytes_drop_while (p : byte -> bool) (s : bytes) : bytes :=
  match s with
  | b :: s' => if p b then bytes_drop_while p s' else s
  | [] => []
  end.

Definition bytes_strip (s : bytes) : bytes :=
  rev (bytes_drop_while is_bytes_space (rev (bytes_drop_while is_bytes_space s))).

(** [len(b)] *)
Definition len (s : bytes) : Z := Z.of_nat (List.length s).

(** Truth value of a sequence: [bool(s)]. *)
Definition truthy {A : Type} (s : list A) : bool :=
  match s with [] => false | _ :: _ => true end.

(** [int(text)] on a [str]: blanks around, a sign, decimal digits that
    single underscores may separate; [None] stands for [ValueError]. *)
Fixpoint int_digits (after_digit : bool) (acc : Z) (s : pystr) : option Z :=
  match s with
  | [] => if after_digit then Some acc else None
  | c :: s' =>
      if is_digit c then int_digits true (10 * acc + digit_value c)%Z s'
      else if Ascii.eqb c "_" && after_digit then int_digits false acc s'
      else None
  end.

Definition py_int (text : pystr) : option Z :=
  match strip text with
  | c :: body =>
      if Ascii.eqb c "-" then option_map Z.opp (int_digits false 0 body)
      else if Ascii.eqb c "+" then int_digits false 0 body
      else int_digits false 0 (c :: body)
  | [] => None
  end.

(** ** The remote server, as [requests] shows it

    [requests.get(url, stream=True)] either raises or returns a response
    whose body arrives in chunks; the stream may break between chunks.
    What [requests] raises is a [RequestException], the base class of
    its exceptions. *)

Inductive stream_event : Type :=
| Chunk (data : bytes)
| StreamFailure (e : request_error).

Record Response : Type := mkResponse {
  status_code : Z;
  content_length_header : option pystr;   (* headers.get("Content-Length") *)
  iter_content : list stream_event
}.

Definition http_outcome : Type := (request_error + Response)%type.

(** [response.raise_for_status()]: [HTTPError] on a 4xx or 5xx status. *)
Definition raise_for_status (response : Response) : result unit :=
  if ((400 <=? status_code response) && (status_code response <? 600))%Z
  then Raise (RequestException (HTTPError (status_code response)))
  else Ok tt.

(** ** Bounded fetcher ([_fetch_svg]) *)

Section BoundedFetcher.

Variable settings : Settings.

(** Lines 68-70. *)
Definition check_content_length (response : Response) : result unit :=
  match content_length_header response with
  | None => Ok tt
  | Some content_length =>
      if truthy content_length
      then match py_int content_length with
           | None => Raise (ValueError "invalid literal for int() with base 10")
           | Some n =>
               if (max_svg_bytes settings <? n)%Z
               then Raise (ValueError "SVG exceeds maximum allowed size.")
               else Ok tt
           end
      else Ok tt
  end.

(** Lines 72-78: the loop over the chunks, [buffer] passed along. *)
Fixpoint read_chunks (events : list stream_event) (buffer : bytes) : result bytes :=
  match events with
  | [] => Ok buffer
  | StreamFailure e :: _ => Raise (RequestException e)
  | Chunk chunk :: events' =>
      if truthy chunk
      then let buffer := (buffer ++ chunk)%list in
           if (max_svg_bytes settings <? len buffer)%Z
           then Raise (ValueError "SVG exceeds maximum allowed size.")
           else read_chunks events' buffer
      else read_chunks events' buffer
  end.

(** Lines 61-84, the body of the [try]. *)
Definition fetch_body (got : http_outcome) : result bytes :=
  match got with
  | inl e => Raise (RequestException e)
  | inr response =>
      _ <~ raise_for_status response ;;
      _ <~ check_content_length response ;;
      svg_bytes <~ read_chunks (iter_content response) [] ;;
      if truthy (bytes_strip svg_bytes)
      then Ok svg_bytes
      else Raise (ValueError "SVG document is empty.")
  end.

(** Lines 85-86: [except requests.RequestException]. *)
Definition _fetch_svg (got : http_outcome) : result bytes :=
  match fetch_body got with
  | Ok svg_bytes => Ok svg_bytes
  | Raise e =>
      if is_RequestException e
      then Raise (ValueError "Unable to download SVG")
      else Raise e
  end.

End BoundedFetcher.

(** ** The object store, as [google.cloud.storage] shows it

    Times are microseconds since the epoch, the resolution of
    [datetime].  Iterating [bucket.list_blobs(prefix)] yields blobs and
    may raise between two of them; [blob.delete()] returns or raises.
    The class of what they raise is left open: the client library
    raises [GoogleAPIError] for the errors of the service, and the
    transport underneath can raise others. *)

Record Blob : Type := mkBlob {
  name : pystr;
  time_created : option Z;
  delete : option exn      (* [None]: the call returns *)
}.

Inductive listing_event : Type :=
| Listed (blob : Blob)
| ListingFailure (e : exn).

(** What a pruning pass leaves behind: the value of [deleted] and the
    objects whose [delete()] returned, oldest call first. *)
Record PruneState : Type := mkPruneState {
  deleted : Z;
  removed : list Blob
}.

(** [timedelta(seconds=n)] *)
Definition timedelta_seconds (n : Z) : Z := (n * 1000000)%Z.

Section Pruner.

Variable settings : Settings.

(** Line 183. *)
Definition cutoff_of (now : Z) : Z :=
  (now - timedelta_seconds (prune_after_seconds settings))%Z.

(** Lines 187-193: the loop; the exception that ends it, if any, is
    returned beside the state reached. *)
Fixpoint prune_loop (cutoff : Z) (listing : list listing_event) (st : PruneState)
  : PruneState * option exn :=
  match listing with
  | [] => (st, None)
  | ListingFailure e :: _ => (st, Some e)
  | Listed blob :: listing' =>
      match time_created blob with
      | None => prune_loop cutoff listing' st
      | Some created =>
          if (created <? cutoff)%Z
          then match delete blob with
               | Some e => (st, Some e)
               | None =>
                   prune_loop cutoff listing'
                     (mkPruneState (deleted st + 1) (removed st ++ [blob]))
               end
          else prune_loop cutoff listing' st
      end
  end.

(** Lines 181-197: [except GoogleAPIError] keeps the count reached;
    any other exception leaves the function. *)
Definition _prune_old_files (listing : list listing_event) (now : Z)
  : list Blob * result Z :=
  let (st, raised) := prune_loop (cutoff_of now) listing (mkPruneState 0 []) in
  match raised with
  | None => (removed st, Ok (deleted st))
  | Some e =>
      if is_GoogleAPIError e
      then (removed st, Ok (deleted st))
      else (removed st, Raise e)
  end.

End Pruner.

(** ** Render orchestrator and the [/render] route *)

(** The collaborators of one request. *)
Record World : Type := mkWorld {
  requests_get : pystr -> http_outcome;
  urlparse : pystr -> pystr * pystr;               (* scheme, netloc *)
  cairo_Tree : bytes -> result Tree;               (* Tree(bytestring=...) *)
  svg2png : bytes -> Z -> Z -> result bytes;
  uuid4_hex : pystr;
  upload_from_string : pystr -> bytes -> option exn;
  generate_signed_url : pystr -> Z -> result pystr;
  list_blobs : list listing_event;                 (* under OBJECT_PREFIX *)
  utc_now : Z
}.

(** [payload.get("svg_url")] of the JSON body. *)
Inductive json_value : Type :=
| JString (s : pystr)
| JOther.

Record Request : Type := mkRequest {
  header_api_key : option pystr;       (* request.headers.get(API_KEY_HEADER) *)
  payload_svg_url : option json_value
}.

Inductive body : Type :=
| ErrorBody (error : string)
| RenderBody (png_url object_name : pystr) (width height pruned_files : Z)
| StatusBody (status : string).

Definition OBJECT_PREFIX : pystr := lit "renders".

(** [str(exc)] *)
Definition exn_text (e : exn) : string :=
  match e with
  | ValueError msg | GoogleAPIError msg | OSError msg | OtherException msg => msg
  | ZeroDivisionError => "float division by zero"
  | RequestException _ => "request failed"
  end.

Section Orchestrator.

Variable settings : Settings.
Variable world : World.

Definition _is_authorized (provided_key : option pystr) : bool :=
  match provided_key, api_key settings with
  | Some key, Some expected => truthy key && str_eqb key (lit expected)
  | _, _ => false
  end.

Definition _validate_url (url : pystr) : bool :=
  let (scheme, netloc) := urlparse world url in
  (str_eqb scheme (lit "http") || str_eqb scheme (lit "https")) && truthy netloc.

Definition _convert_svg_to_png (svg_bytes : bytes) : result (bytes * Z * Z) :=
  tree <~ cairo_Tree world svg_bytes ;;
  size <~ _extract_svg_dimensions tree ;;
  target <~ outcome (_compute_scale settings (fst size) (snd size)) ;;
  png_bytes <~ svg2png world svg_bytes (fst target) (snd target) ;;
  Ok (png_bytes, fst target, snd target).

Definition _upload_png (png_bytes : bytes) : result (pystr * pystr) :=
  let blob_name := (OBJECT_PREFIX ++ lit "/" ++ uuid4_hex world ++ lit ".png")%list in
  match upload_from_string world blob_name png_bytes with
  | Some e => Raise e
  | None =>
      signed_url <~ generate_signed_url world blob_name (signed_url_ttl_seconds settings) ;;
      Ok (blob_name, signed_url)
  end.

(** Lines 213-215, the body of the [try] in [render_svg]. *)
Definition render_steps (svg_url : pystr) : result (pystr * pystr * Z * Z) :=
  svg_bytes <~ _fetch_svg settings (requests_get world svg_url) ;;
  converted <~ _convert_svg_to_png svg_bytes ;;
  uploaded <~ _upload_png (fst (fst converted)) ;;
  Ok (fst uploaded, snd uploaded, snd (fst converted), snd converted).

(** The view: [Ok (body, status)] is the response it returns, [Raise e]
    an exception that leaves the view function. *)
Definition render_svg (request : Request) : result (body * Z) :=
  if negb (_is_authorized (header_api_key request))
  then Ok (ErrorBody "Unauthorized", 401%Z)
  else
    match payload_svg_url request with
    | Some (JString svg_url) =>
        if truthy svg_url && _validate_url svg_url
        then
          match render_steps svg_url with
          | Raise e =>
              if is_ValueError e
              then Ok (ErrorBody (exn_text e), 400%Z)
              else if is_GoogleAPIError e || is_OSError e
              then Ok (ErrorBody "Failed to render SVG.", 500%Z)
              else Raise e
          | Ok (blob_name, signed_url, width, height) =>
              pruned <~ snd (_prune_old_files settings (list_blobs world) (utc_now world)) ;;
              Ok (RenderBody signed_url blob_name width height pruned, 200%Z)
          end
        else Ok (ErrorBody "svg_url must be a valid HTTP(S) URL.", 400%Z)
    | _ => Ok (ErrorBody "svg_url must be a valid HTTP(S) URL.", 400%Z)
    end.

Definition health_check : body * Z := (StatusBody "ok", 200%Z).

End Orchestrator.

(** ** Vocabulary of the statements *)

(** What one atom of a pattern can have consumed. *)
Definition atom_accepts (a : atom) (text : pystr) : Prop :=
  forallb (class a) text = true
  /\ match quant a with
     | Once => List.length text = 1%nat
     | Optional => (List.length text <= 1)%nat
     | ZeroOrMore => True
     | OneOrMore => (1 <= List.length text)%nat
     end.

(** The numeric token that [_LENGTH_RE] finds in an attribute starts
    with a minus sign. *)
Definition has_minus_token (raw_value : option pystr) : bool :=
  match raw_value with
  | Some raw_value =>
      match _LENGTH_RE_match raw_value with
      | Some m => startswith (group1 m) (lit "-")
      | None => false
      end
  | None => false
  end.

(** [_parse_svg_length(text)] returns a float equal to [v]. *)
Definition parses_to (text : string) (v : Q) : Prop :=
  exists r, _parse_svg_length (Some (lit text)) = Ok r /\ r == v.


(** A stored object is stale at [cutoff]: its creation time is known
    and strictly earlier. *)
Definition stale (cutoff : Z) (blob : Blob) : bool :=
  match time_created blob with
  | Some created => (created <? cutoff)%Z
  | None => false
  end.

(** The objects a listing yields. *)
Fixpoint listed (listing : list listing_event) : list Blob :=
  match listing with
  | [] => []
  | Listed blob :: listing' => blob :: listed listing'
  | ListingFailure _ :: listing' => listed listing'
  end.

(** The first fault of a pass: the listing breaks, or the deletion of a
    stale object fails. *)
Fixpoint first_fault (cutoff : Z) (listing : list listing_event) : option exn :=
  match listing with
  | [] => None
  | ListingFailure e :: _ => Some e
  | Listed blob :: listing' =>
      if stale cutoff blob
      then match delete blob with
           | Some e => Some e
           | None => first_fault cutoff listing'
           end
      else first_fault cutoff listing'
  end.

(** The stale objects listed before the first fault. *)
Fixpoint stale_before_fault (cutoff : Z) (listing : list listing_event) : list Blob :=
  match listing with
  | [] => []
  | ListingFailure _ :: _ => []
  | Listed blob :: listing' =>
      if stale cutoff blob
      then match delete blob with
           | Some _ => []
           | None => blob :: stale_before_fault cutoff listing'
           end
      else stale_before_fault cutoff listing'
  end.

(** ** Sample collaborators *)

Definition svg_document : bytes := [x3c; x73; x76; x67; x2f; x3e].   (* <svg/> *)

Definition sample_world (got : http_outcome) (listing : list listing_event) : World :=
  {| requests_get := fun _ => got;
     urlparse := fun _ => (lit "https", lit "example.org");
     cairo_Tree := fun _ => Ok [(lit "width", lit "100"); (lit "height", lit "50")];
     svg2png := fun _ _ _ => Ok [x89; x50; x4e; x47];
     uuid4_hex := lit "0123456789abcdef0123456789abcdef";
     upload_from_string := fun _ _ => None;
     generate_signed_url := fun _ _ => Ok (lit "https://storage.example.org/signed");
     list_blobs := listing;
     utc_now := 1000000000000000 |}.

Definition sample_request : Request :=
  {| header_api_key := Some (lit "secret");
     payload_svg_url := Some (JString (lit "https://example.org/logo.svg")) |}.

Definition good_response : Response :=
  {| status_code := 200;
     content_length_header := Some (lit "6");
     iter_content := [Chunk svg_document] |}.

Definition oversized_response : Response :=
  {| status_code := 200;
     content_length_header := Some (lit "10000000");
     iter_content := [Chunk svg_document] |}.

Definition old_blob (delete_result : option exn) : Blob :=
  {| name := lit "renders/old.png";
     time_created := Some 0%Z;
     delete := delete_result |}.

(** A listing seen at [utc_now = 10^15] with the default retention of
    24 hours, so at cutoff 999913600000000: an object without creation
    time, one created at the cutoff exactly, one a microsecond older. *)
Definition sample_listing : list listing_event :=
  [ Listed {| name := lit "renders/a.png"; time_created := None; delete := None |};
    Listed {| name := lit "renders/b.png";
              time_created := Some 999913600000000%Z; delete := None |};
    Listed {| name := lit "renders/c.png";
              time_created := Some 999913599999999%Z; delete := None |} ].

(** ** Reading the environment ([config.py]) *)

(** [os.environ] *)
Definition environ : Type := list (pystr * pystr).

(** [_get_int_from_env]: [int(raw_value)] raises nothing but
    [ValueError], which the handler answers with the default. *)
Definition _get_int_from_env (env : environ) (key : string) (default : Z) : Z :=
  match dict_get env (lit key) with
  | None => default
  | Some raw_value =>
      if truthy raw_value
      then match py_int raw_value with
           | Some n => n
           | None => default
           end
      else default
  end.

(** [os.environ.get(key, default)] *)
Definition environ_get (env : environ) (key : string) (default : pystr) : pystr :=
  match dict_get env (lit key) with
  | Some value => value
  | None => default
  end.

(** [Settings()], the field defaults being read from the environment.
    The field [signing_service_account], which [main.py] never reads,
    has no counterpart in the record. *)
Definition load_settings (env : environ) : Settings :=
  {| bucket_name := string_of_list_ascii (environ_get env "BUCKET_NAME" (lit "svg-render-service"));
     api_key := option_map string_of_list_ascii (dict_get env (lit "API_KEY"));
     request_timeout_seconds := _get_int_from_env env "SVG_FETCH_TIMEOUT_SECONDS" 10;
     max_svg_bytes := _get_int_from_env env "MAX_SVG_BYTES" (5 * 1024 * 1024);
     min_output_width := _get_int_from_env env "MIN_OUTPUT_WIDTH" 512;
     max_output_width := _get_int_from_env env "MAX_OUTPUT_WIDTH" 4096;
     max_output_height := _get_int_from_env env "MAX_OUTPUT_HEIGHT" 4096;
     signed_url_ttl_seconds := _get_int_from_env env "SIGNED_URL_TTL_SECONDS" 3600;
     prune_after_seconds := _get_int_from_env env "PRUNE_AFTER_SECONDS" (24 * 3600) |}.

(** Lines 26-29 of [main.py]: the module loads only with an API key.
    [RuntimeError] is one of the classes no handler names. *)
Definition load_service (env : environ) : result Settings :=
  match api_key (load_settings env) with
  | Some key =>
      if truthy (list_ascii_of_string key)
      then Ok (load_settings env)
      else Raise (OtherException
                    "API_KEY environment variable must be set for the service to start.")
  | None =>
      Raise (OtherException
               "API_KEY environment variable must be set for the service to start.")
  end.


(** The separators of the [viewBox] pattern [[\s,]+]. *)
Definition is_separator (c : ascii) : bool := is_space c || is_comma c.



(** * Properties *)

(** ** Comparisons, division and rounding *)

Lemma Qlt_bool_true (a b : Q) : Qlt_bool a b = true <-> a < b.
Proof.
  unfold Qlt_bool. rewrite negb_true_iff.
  split; intro H.
  - apply Qnot_le_lt. intro Hle. apply Qle_bool_iff in Hle. congruence.
  - destruct (Qle_bool b a) eqn:E; [|reflexivity].
    apply Qle_bool_iff in E. exfalso. apply (Qlt_not_le _ _ H E).
Qed.

Lemma Qlt_bool_false (a b : Q) : Qlt_bool a b = false <-> b <= a.
Proof.
  unfold Qlt_bool. rewrite negb_false_iff. apply Qle_bool_iff.
Qed.

Lemma Qle_bool_false (a b : Q) : Qle_bool a b = false <-> b < a.
Proof.
  rewrite <- Qlt_bool_true. unfold Qlt_bool.
  destruct (Qle_bool a b); simpl; intuition congruence.
Qed.

Lemma py_div_nonzero (a b : Q) :
  ~ b == 0 -> py_div a b = ([b], Ok (a / b)).
Proof.
  intro Hb. unfold py_div.
  destruct (Qeq_bool b 0) eqn:E; [|reflexivity].
  apply Qeq_bool_iff in E. contradiction.
Qed.

Lemma py_div_pos (a b : Q) :
  0 < b -> py_div a b = ([b], Ok (a / b)).
Proof.
  intro Hb. apply py_div_nonzero. intro E. rewrite E in Hb.
  exact (Qlt_irrefl _ Hb).
Qed.

Lemma div_mul_cancel (a b : Q) : ~ b == 0 -> b * (a / b) == a.
Proof. intro Hb. field. exact Hb. Qed.

Lemma round_floor_or_next (x : Q) :
  Py.round x = Qfloor x
  \/ (Py.round x = (Qfloor x + 1)%Z /\ inject_Z (Qfloor x) < x).
Proof.
  unfold Py.round.
  destruct (Qcompare_spec (x - inject_Z (Qfloor x)) (1 # 2)) as [E|L|G].
  - destruct (Z.even (Qfloor x)); [left; reflexivity|right].
    split; [reflexivity|]. lra.
  - left; reflexivity.
  - right. split; [reflexivity|]. lra.
Qed.

(** An integer above [x] is above [round(x)]. *)
Lemma round_le_int (x : Q) (n : Z) :
  x <= inject_Z n -> (Py.round x <= n)%Z.
Proof.
  intro Hx.
  pose proof (Qfloor_le x) as Hf.
  destruct (round_floor_or_next x) as [-> | [-> Hlt]].
  - rewrite Zle_Qle. lra.
  - assert (Qfloor x < n)%Z; [|lia].
    rewrite Zlt_Qlt. lra.
Qed.

(** An integer below [x] is below [round(x)]. *)
Lemma round_ge_int (x : Q) (n : Z) :
  inject_Z n <= x -> (n <= Py.round x)%Z.
Proof.
  intro Hx.
  pose proof (Qlt_floor x) as Hf.
  assert (n < Qfloor x + 1)%Z as Hn by (rewrite Zlt_Qlt; lra).
  destruct (round_floor_or_next x) as [-> | [-> _]]; lia.
Qed.


(** ** Scale resolver *)

Section ScaleResolverFacts.

Variable settings : Settings.

Local Abbreviation min_w := (inject_Z (min_output_width settings)).
Local Abbreviation max_w := (inject_Z (max_output_width settings)).
Local Abbreviation max_h := (inject_Z (max_output_height settings)).

(** What [fallback_canvas] returns: the sides given, both positive, or
    the square of side [min_output_width]. *)
Lemma fallback_canvas_cases (width height : Q) :
  (0 < width /\ 0 < height
   /\ fallback_canvas settings width height = (width, height))
  \/ ((width <= 0 \/ height <= 0)
      /\ fallback_canvas settings width height = (min_w, min_w)).
Proof.
  unfold fallback_canvas.
  destruct (Qle_bool width 0) eqn:Ew; simpl.
  - right. split; [left; now apply Qle_bool_iff|reflexivity].
  - destruct (Qle_bool height 0) eqn:Eh.
    + right. split; [right; now apply Qle_bool_iff|reflexivity].
    + left. repeat split; now apply Qle_bool_false.
Qed.

(** The min-width step on a positive width: it divides by [width] or
    not at all, and the scale it leaves is at least the one it got
    and makes the width reach [min_output_width]. *)
Lemma min_width_step_pos (width scale : Q) :
  0 < width ->
  exists ds s',
    min_width_step settings width scale = (ds, Ok s')
    /\ Forall (Qlt 0) ds
    /\ scale <= s'
    /\ (1 <= scale -> min_w <= width * s').
Proof.
  intro Hw. unfold min_width_step.
  destruct (Qlt_bool width (inject_Z (min_output_width settings))) eqn:E.
  - apply Qlt_bool_true in E.
    rewrite (py_div_pos _ _ Hw). cbn.
    pose proof (div_mul_cancel (inject_Z (min_output_width settings)) width) as Hq.
    assert (~ width == 0) as Hnz by lra. specialize (Hq Hnz).
    set (q := inject_Z (min_output_width settings) / width) in *.
    exists [width], (Py.max scale q).
    split; [reflexivity|]. split; [repeat constructor; exact Hw|].
    unfold Py.max. destruct (Qlt_bool scale q) eqn:Em; cbv iota.
    + apply Qlt_bool_true in Em. split; [lra|]. intros _. lra.
    + apply Qlt_bool_false in Em. split; [lra|]. intros _. nra.
  - apply Qlt_bool_false in E.
    exists [], scale. split; [reflexivity|]. split; [constructor|].
    split; [lra|]. intro H1. nra.
Qed.

(** The max-width step on a positive width. *)
Lemma max_width_step_pos (width scale : Q) :
  0 < width ->
  exists ds s',
    max_width_step settings width scale = (ds, Ok s')
    /\ Forall (Qlt 0) ds
    /\ width * s' <= max_w
    /\ (width * scale <= max_w -> ds = [] /\ s' = scale)
    /\ (0 < max_w -> 0 < scale -> 0 < s').
Proof.
  intro Hw. unfold max_width_step.
  destruct (Qlt_bool (inject_Z (max_output_width settings)) (width * scale)) eqn:E.
  - apply Qlt_bool_true in E.
    rewrite (py_div_pos _ _ Hw).
    pose proof (div_mul_cancel (inject_Z (max_output_width settings)) width) as Hq.
    assert (~ width == 0) as Hnz by lra. specialize (Hq Hnz).
    set (q := inject_Z (max_output_width settings) / width) in *.
    exists [width], q.
    split; [reflexivity|]. split; [repeat constructor; exact Hw|].
    split; [lra|]. split; [intro; lra|].
    intros Hm _. destruct (Qlt_le_dec 0 q) as [|Hq0]; [assumption|]. nra.
  - apply Qlt_bool_false in E.
    exists [], scale. split; [reflexivity|]. split; [constructor|].
    split; [exact E|]. split; [intros _; split; reflexivity|]. intros _ H; exact H.
Qed.

(** The max-height step on a positive height: it never raises the
    scale. *)
Lemma max_height_step_pos (height scale : Q) :
  0 < height ->
  exists ds s',
    max_height_step settings height scale = (ds, Ok s')
    /\ Forall (Qlt 0) ds
    /\ height * s' <= max_h
    /\ s' <= scale
    /\ (height * scale <= max_h -> ds = [] /\ s' = scale).
Proof.
  intro Hh. unfold max_height_step.
  destruct (Qlt_bool (inject_Z (max_output_height settings)) (height * scale)) eqn:E.
  - apply Qlt_bool_true in E.
    rewrite (py_div_pos _ _ Hh).
    pose proof (div_mul_cancel (inject_Z (max_output_height settings)) height) as Hq.
    assert (~ height == 0) as Hnz by lra. specialize (Hq Hnz).
    set (q := inject_Z (max_output_height settings) / height) in *.
    exists [height], q.
    split; [reflexivity|]. split; [repeat constructor; exact Hh|].
    split; [lra|]. split; [|intro; lra].
    destruct (Qlt_le_dec scale q) as [Hlt|]; [|assumption]. nra.
  - apply Qlt_bool_false in E.
    exists [], scale. split; [reflexivity|]. split; [constructor|].
    split; [exact E|]. split; [lra|]. intros _; split; reflexivity.
Qed.

End ScaleResolverFacts.

Lemma bind_ok {A B : Type} (ds : list Q) (a : A) (f : A -> traced B) :
  bind (ds, Ok a) f = ((ds ++ fst (f a))%list, snd (f a)).
Proof. unfold bind. destruct (f a); reflexivity. Qed.

Lemma bind_ret_l {A B : Type} (a : A) (f : A -> traced B) :
  bind (ret a) f = f a.
Proof. unfold bind, ret. destruct (f a); reflexivity. Qed.

Section ScaleResolverResults.

Variable settings : Settings.

Local Abbreviation min_w := (inject_Z (min_output_width settings)).
Local Abbreviation max_w := (inject_Z (max_output_width settings)).
Local Abbreviation max_h := (inject_Z (max_output_height settings)).

(** Lines 94-103 on a canvas with positive sides: no division by
    zero, at most three divisions, and a scale under which neither
    side exceeds its maximum.  When the two maxima leave the scale of
    the min-width step alone, that scale is the final one. *)
Lemma resolve_scale_pos (width height : Q) :
  0 < width -> 0 < height ->
  exists ds s,
    resolve_scale settings width height = (ds, Ok s)
    /\ Forall (Qlt 0) ds
    /\ (List.length ds <= 3)%nat
    /\ width * s <= max_w
    /\ height * s <= max_h
    /\ (forall s1,
           outcome (min_width_step settings width 1) = Ok s1 ->
           width * s1 <= max_w -> height * s1 <= max_h ->
           s = s1 /\ min_w <= width * s).
Proof.
  intros Hw Hh. unfold resolve_scale.
  destruct (min_width_step_pos settings width 1 Hw)
    as (d1 & s1 & E1 & F1 & _ & G1).
  destruct (max_width_step_pos settings width s1 Hw)
    as (d2 & s2 & E2 & F2 & B2 & K2 & _).
  destruct (max_height_step_pos settings height s2 Hh)
    as (d3 & s3 & E3 & F3 & B3 & L3 & K3).
  rewrite E1, bind_ok, E2, bind_ok, E3. cbn [fst snd].
  exists (d1 ++ d2 ++ d3)%list, s3.
  split; [reflexivity|].
  split; [repeat (apply Forall_app; split); assumption|].
  split.
  { rewrite !length_app.
    assert (List.length d1 <= 1)%nat.
    { unfold min_width_step in E1. destruct (Qlt_bool _ _) in E1.
      - rewrite (py_div_pos _ _ Hw) in E1. inversion E1. simpl. lia.
      - inversion E1. simpl. lia. }
    assert (List.length d2 <= 1)%nat.
    { unfold max_width_step in E2. destruct (Qlt_bool _ _) in E2.
      - rewrite (py_div_pos _ _ Hw) in E2. inversion E2. simpl. lia.
      - inversion E2. simpl. lia. }
    assert (List.length d3 <= 1)%nat.
    { unfold max_height_step in E3. destruct (Qlt_bool _ _) in E3.
      - rewrite (py_div_pos _ _ Hh) in E3. inversion E3. simpl. lia.
      - inversion E3. simpl. lia. }
    lia. }
 
  split; [nra|]. split; [exact B3|].
  intros s1' Es1 Hmw Hmh.
  cbn in Es1. injection Es1 as <-.
 
  destruct (K2 Hmw) as [_ ->].
  destruct (K3 Hmh) as [_ ->].
  split; [reflexivity|]. apply G1. lra.
Qed.




(** On a square canvas of non-positive side no step fires, provided
    the two maxima are positive. *)
Lemma compute_scale_nonpos_square (width height : Q) :
  fallback_canvas settings width height = (min_w, min_w) ->
  min_w <= 0 -> 0 < max_w -> 0 < max_h ->
  _compute_scale settings width height = ([], Ok (1%Z, 1%Z)).
Proof.
  intros Ec Hmin Hmw Hmh. unfold _compute_scale. rewrite Ec.
  unfold resolve_scale, min_width_step, max_width_step, max_height_step.
  assert (Qlt_bool min_w min_w = false) as -> by (apply Qlt_bool_false; lra).
  rewrite bind_ret_l.
  assert (Qlt_bool max_w (min_w * 1) = false) as -> by (apply Qlt_bool_false; lra).
  rewrite bind_ret_l.
  assert (Qlt_bool max_h (min_w * 1) = false) as -> by (apply Qlt_bool_false; lra).
  rewrite bind_ret_l. unfold ret.
  unfold scaled_size.
  assert (Py.round (min_w * 1) <= 0)%Z as Hr.
  { apply round_le_int. change (inject_Z 0) with 0. lra. }
  rewrite Z.max_l by lia. reflexivity.
Qed.

End ScaleResolverResults.



Lemma round_eq_int (x : Q) (n : Z) : x == inject_Z n -> Py.round x = n.
Proof.
  intro E. apply Z.le_antisymm.
  - apply round_le_int. rewrite E. apply Qle_refl.
  - apply round_ge_int. rewrite E. apply Qle_refl.
Qed.








(** ** The matcher *)

Lemma consumed_some (text : pystr) (r : option submatches)
      (groups : list pystr) (rest : pystr) :
  consumed text r = Some (groups, rest) ->
  exists groups', groups = text :: groups' /\ r = Some (groups', rest).
Proof.
  destruct r as [[g s]|]; simpl; intro H; [|discriminate].
  injection H as <- <-. exists g. split; reflexivity.
Qed.

Lemma extend_some (c : ascii) (r : option submatches)
      (groups : list pystr) (rest : pystr) :
  extend c r = Some (groups, rest) ->
  exists text groups',
    groups = (c :: text) :: groups' /\ r = Some (text :: groups', rest).
Proof.
  destruct r as [[[|t g] s]|]; simpl; intro H; try discriminate.
  injection H as <- <-. exists t, g. split; reflexivity.
Qed.

(** A greedy repetition consumes a prefix made of characters of the
    class and hands the rest to its continuation. *)
Lemma repeat_greedy_sound (cls : ascii -> bool) (k : pystr -> option submatches)
      (s : pystr) (groups : list pystr) (rest : pystr) :
  repeat_greedy cls k s = Some (groups, rest) ->
  exists text groups' s2,
    groups = text :: groups' /\ s = (text ++ s2)%list
    /\ forallb cls text = true /\ k s2 = Some (groups', rest).
Proof.
  revert groups rest. induction s as [|c s' IH]; intros groups rest H; simpl in H.
  - apply consumed_some in H as (g & -> & Hk).
    exists [], g, []. repeat split; assumption.
  - destruct (cls c) eqn:Ec.
    + destruct (extend c (repeat_greedy cls k s')) as [r|] eqn:Ex.
      * injection H as ->.
        apply extend_some in Ex as (text & g & -> & Hr).
        apply IH in Hr as (text' & g' & s2 & Hg & -> & Hall & Hk).
        injection Hg as <- <-.
        exists (c :: text), g, s2. repeat split; try assumption.
        simpl. rewrite Ec, Hall. reflexivity.
      * apply consumed_some in H as (g & -> & Hk).
        exists [], g, (c :: s'). repeat split; assumption.
    + apply consumed_some in H as (g & -> & Hk).
      exists [], g, (c :: s'). repeat split; assumption.
Qed.

(** A successful match cuts the text into one piece per atom, each
    accepted by its atom, followed by the unread rest. *)
Lemma match_atoms_sound (atoms : list atom) :
  forall (s : pystr) (groups : list pystr) (rest : pystr),
    match_atoms atoms s = Some (groups, rest) ->
    Forall2 atom_accepts atoms groups /\ s = (List.concat groups ++ rest)%list.
Proof.
  induction atoms as [|a atoms' IH]; intros s groups rest H; simpl in H.
  - injection H as <- <-. split; [constructor|reflexivity].
  - unfold atom_accepts. destruct (quant a) eqn:Eq.
    + destruct s as [|c s']; [discriminate|].
      destruct (class a c) eqn:Ec; [|discriminate].
      apply consumed_some in H as (g & -> & Hk).
      apply IH in Hk as [Hf ->].
      split; [|reflexivity]. constructor; [|exact Hf].
      rewrite Eq. simpl. rewrite Ec. split; reflexivity.
    + assert (consumed [] (match_atoms atoms' s) = Some (groups, rest) ->
              Forall2 atom_accepts (a :: atoms') groups
              /\ s = (List.concat groups ++ rest)%list) as Hskip.
      { intro Hc. apply consumed_some in Hc as (g & -> & Hk).
        apply IH in Hk as [Hf ->].
        split; [|reflexivity]. constructor; [|exact Hf].
        unfold atom_accepts. rewrite Eq. simpl. split; [reflexivity|lia]. }
      unfold atom_accepts in Hskip.
      destruct s as [|c s']; [exact (Hskip H)|].
      destruct (class a c) eqn:Ec; [|exact (Hskip H)].
      destruct (consumed [c] (match_atoms atoms' s')) as [r|] eqn:Et;
        [|exact (Hskip H)].
      injection H as ->.
      apply consumed_some in Et as (g & -> & Hk).
      apply IH in Hk as [Hf ->].
      split; [|reflexivity]. constructor; [|exact Hf].
      rewrite Eq. simpl. rewrite Ec. split; [reflexivity|lia].
    + apply repeat_greedy_sound in H as (text & g & s2 & -> & -> & Hall & Hk).
      apply IH in Hk as [Hf ->].
      split; [|simpl; rewrite app_assoc; reflexivity].
      constructor; [|exact Hf]. rewrite Eq. split; [exact Hall|exact I].
    + destruct s as [|c s']; [discriminate|].
      destruct (class a c) eqn:Ec; [|discriminate].
      apply extend_some in H as (text & g & -> & Hr).
      apply repeat_greedy_sound in Hr as (text' & g' & s2 & Hg & -> & Hall & Hk).
      injection Hg as <- <-.
      apply IH in Hk as [Hf ->].
      split; [|simpl; rewrite app_assoc; reflexivity].
      constructor; [|exact Hf].
      rewrite Eq. simpl. rewrite Ec, Hall. split; [reflexivity|lia].
Qed.


(** The shape of what [_LENGTH_RE] matches: blanks, then the token
    [sign? digits* dot? digits+], then the unread rest. *)
Lemma length_re_match_shape (raw_value : pystr) (m : Match) :
  _LENGTH_RE_match raw_value = Some m ->
  exists blank sign whole dot digits rest,
    raw_value = (blank ++ sign ++ whole ++ dot ++ digits ++ rest)%list
    /\ group1 m = (sign ++ whole ++ dot ++ digits)%list
    /\ match_end m = (List.length blank + List.length (group1 m))%nat
    /\ forallb is_space blank = true
    /\ (forallb is_sign sign = true /\ (List.length sign <= 1)%nat)
    /\ forallb is_digit whole = true
    /\ (forallb is_dot dot = true /\ (List.length dot <= 1)%nat)
    /\ (forallb is_digit digits = true /\ (1 <= List.length digits)%nat).
Proof.
  unfold _LENGTH_RE_match.
  destruct (match_atoms _LENGTH_RE raw_value) as [[groups rest]|] eqn:E;
    [|discriminate].
  apply match_atoms_sound in E as [Hf Hs].
  unfold _LENGTH_RE in Hf.
  inversion Hf as [|a1 blank l1 g1 [Hb _] Hf1]; subst.
  inversion Hf1 as [|a2 sign l2 g2 [Hs1 Hs2] Hf2]; subst.
  inversion Hf2 as [|a3 whole l3 g3 [Hw _] Hf3]; subst.
  inversion Hf3 as [|a4 dot l4 g4 [Hd1 Hd2] Hf4]; subst.
  inversion Hf4 as [|a5 digits l5 g5 [Hg1 Hg2] Hf5]; subst.
  inversion Hf5; subst.
  intro Hm. injection Hm as <-.
  exists blank, sign, whole, dot, digits, rest. cbn in *.
  rewrite app_nil_r, <- !app_assoc.
  repeat split; assumption.
Qed.

(** ** Decimal literals *)

Lemma take_while_app (p : ascii -> bool) (a b : pystr) :
  forallb p a = true -> take_while p (a ++ b) = (a ++ take_while p b)%list.
Proof.
  induction a as [|c a IH]; simpl; intro H; [reflexivity|].
  apply andb_true_iff in H as [-> H]. rewrite (IH H). reflexivity.
Qed.

Lemma drop_while_app (p : ascii -> bool) (a b : pystr) :
  forallb p a = true -> drop_while p (a ++ b) = drop_while p b.
Proof.
  induction a as [|c a IH]; simpl; intro H; [reflexivity|].
  apply andb_true_iff in H as [-> H]. exact (IH H).
Qed.

Lemma take_while_all (p : ascii -> bool) (a : pystr) :
  forallb p a = true -> take_while p a = a.
Proof.
  intro H. rewrite <- (app_nil_r a) at 1.
  rewrite (take_while_app p a [] H). simpl. apply app_nil_r.
Qed.

Lemma drop_while_all (p : ascii -> bool) (a : pystr) :
  forallb p a = true -> drop_while p a = [].
Proof.
  intro H. rewrite <- (app_nil_r a).
  rewrite (drop_while_app p a [] H). reflexivity.
Qed.

Lemma is_dot_not_digit (c : ascii) : is_dot c = true -> is_digit c = false.
Proof. unfold is_dot. intro H. apply Ascii.eqb_eq in H as ->. reflexivity. Qed.

Lemma is_dot_not_sign (c : ascii) : is_dot c = true -> is_sign c = false.
Proof. unfold is_dot. intro H. apply Ascii.eqb_eq in H as ->. reflexivity. Qed.

Lemma is_digit_not_sign (c : ascii) : is_digit c = true -> is_sign c = false.
Proof.
  intro H. unfold is_sign.
  destruct (Ascii.eqb c "-") eqn:E1.
  { apply Ascii.eqb_eq in E1 as ->. discriminate. }
  destruct (Ascii.eqb c "+") eqn:E2.
  { apply Ascii.eqb_eq in E2 as ->. discriminate. }
  reflexivity.
Qed.

Lemma digit_value_nonneg (c : ascii) : is_digit c = true -> (0 <= digit_value c)%Z.
Proof.
  unfold is_digit, in_range, digit_value. intro H.
  apply andb_true_iff in H as [H _]. apply N.leb_le in H. lia.
Qed.

Lemma digits_value_nonneg (ds : pystr) :
  forall acc, (0 <= acc)%Z -> forallb is_digit ds = true ->
              (0 <= digits_value acc ds)%Z.
Proof.
  induction ds as [|d ds IH]; cbn [digits_value forallb]; intros acc Hacc H;
    [exact Hacc|].
  apply andb_true_iff in H as [Hd H].
  apply IH; [|exact H]. pose proof (digit_value_nonneg d Hd). lia.
Qed.

Lemma decimal_nonneg (ds : pystr) (k : nat) :
  forallb is_digit ds = true ->
  0 <= inject_Z (digits_value 0 ds) / inject_Z (10 ^ Z.of_nat k).
Proof.
  intro H. apply Qle_shift_div_l.
  - change 0 with (inject_Z 0). rewrite <- Zlt_Qlt. lia.
  - rewrite Qmult_0_l. change 0 with (inject_Z 0). rewrite <- Zle_Qle.
    apply digits_value_nonneg; [lia|exact H].
Qed.

(** [float] reads every unsigned token of the pattern, as a
    non-negative number. *)
Lemma unsigned_float_token (whole dot digits : pystr) :
  forallb is_digit whole = true ->
  forallb is_dot dot = true -> (List.length dot <= 1)%nat ->
  forallb is_digit digits = true -> (1 <= List.length digits)%nat ->
  exists v, unsigned_float (whole ++ dot ++ digits) = Some v /\ 0 <= v.
Proof.
  intros Hw Hd Hdl Hg Hgl. unfold unsigned_float.
  destruct dot as [|c [|c' dot']]; [| |simpl in Hdl; lia].
  - simpl app.
    assert (forallb is_digit (whole ++ digits) = true) as Hall
        by (rewrite forallb_app, Hw, Hg; reflexivity).
    rewrite (take_while_all _ _ Hall), (drop_while_all _ _ Hall).
    rewrite app_nil_r.
    destruct (whole ++ digits)%list as [|x xs] eqn:E.
    { apply (f_equal (@List.length ascii)) in E. rewrite length_app in E.
      simpl in E. lia. }
    eexists. split; [reflexivity|]. apply decimal_nonneg. exact Hall.
  - simpl in Hd. apply andb_true_iff in Hd as [Hc _].
    rewrite (take_while_app _ _ _ Hw), (drop_while_app _ _ _ Hw).
    simpl. rewrite (is_dot_not_digit c Hc), Hc.
    rewrite (take_while_all _ _ Hg), (drop_while_all _ _ Hg).
    rewrite app_nil_r.
    destruct (whole ++ digits)%list as [|x xs] eqn:E.
    { apply (f_equal (@List.length ascii)) in E. rewrite length_app in E.
      simpl in E. lia. }
    eexists. split; [reflexivity|]. apply decimal_nonneg.
    rewrite <- E, forallb_app, Hw, Hg. reflexivity.
Qed.

Lemma startswith_minus (c : ascii) (s : pystr) :
  startswith (c :: s) (lit "-") = Ascii.eqb c "-".
Proof.
  unfold lit. cbn [list_ascii_of_string startswith].
  rewrite andb_true_r. apply Ascii.eqb_sym.
Qed.

(** [float(match.group(1))] never raises; its value is non-negative
    for a token without a minus sign in front and non-positive for a
    token with one. *)
Lemma py_float_token (sign whole dot digits : pystr) :
  forallb is_sign sign = true -> (List.length sign <= 1)%nat ->
  forallb is_digit whole = true ->
  forallb is_dot dot = true -> (List.length dot <= 1)%nat ->
  forallb is_digit digits = true -> (1 <= List.length digits)%nat ->
  exists v,
    py_float (sign ++ whole ++ dot ++ digits) = Some v
    /\ (startswith (sign ++ whole ++ dot ++ digits) (lit "-") = false -> 0 <= v)
    /\ (startswith (sign ++ whole ++ dot ++ digits) (lit "-") = true -> v <= 0).
Proof.
  intros Hs Hsl Hw Hd Hdl Hg Hgl.
  destruct (unsigned_float_token whole dot digits Hw Hd Hdl Hg Hgl)
    as (v & Ev & Hv).
  destruct sign as [|c [|c' sign']]; [| |simpl in Hsl; lia].
  - exists v. simpl app.
    destruct (whole ++ dot ++ digits)%list as [|x xs] eqn:E.
    { unfold unsigned_float in Ev. simpl in Ev. discriminate. }
    assert (is_sign x = false) as Hx.
    { destruct whole as [|w whole'].
      - destruct dot as [|d dot'].
        + destruct digits as [|g digits']; [discriminate|].
          simpl in E. injection E as <- _. simpl in Hg.
          apply andb_true_iff in Hg as [Hg _]. now apply is_digit_not_sign.
        + simpl in E. injection E as <- _. simpl in Hd.
          apply andb_true_iff in Hd as [Hd _]. now apply is_dot_not_sign.
      - simpl in E. injection E as <- _. simpl in Hw.
        apply andb_true_iff in Hw as [Hw _]. now apply is_digit_not_sign. }
    unfold is_sign in Hx. apply orb_false_iff in Hx as [Hminus Hplus].
    split; [unfold py_float; rewrite Hminus, Hplus; exact Ev|].
    split; [intros _; exact Hv|].
    rewrite startswith_minus, Hminus. discriminate.
  - simpl in Hs. apply andb_true_iff in Hs as [Hc _].
    unfold is_sign in Hc. simpl app. unfold py_float.
    destruct (Ascii.eqb c "-") eqn:Em.
    + exists (- v). rewrite Ev. split; [reflexivity|].
      rewrite startswith_minus, Em.
      split; [intro H; discriminate H|intros _; lra].
    + simpl in Hc. rewrite Hc. exists v. split; [exact Ev|].
      split; [intros _; exact Hv|].
      rewrite startswith_minus, Em. discriminate.
Qed.

(** ** Unit converter *)

(** Every factor of the unit table is positive. *)
Lemma unit_factor_pos (unit : pystr) (factor : Q) :
  dict_get _SVG_UNIT_TO_PX unit = Some factor -> 0 < factor.
Proof.
  unfold _SVG_UNIT_TO_PX. cbn [dict_get].
  repeat (destruct (str_eqb _ unit);
          [intro H; injection H as <-; reflexivity|]).
  discriminate.
Qed.

(** [_parse_svg_length] on a text in which [_LENGTH_RE] finds a token:
    [float] reads the token, and the result is decided by the unit
    text alone. *)
Lemma parse_svg_length_matched (raw_value : pystr) (m : Match) :
  _LENGTH_RE_match raw_value = Some m ->
  exists value,
    py_float (group1 m) = Some value
    /\ (startswith (group1 m) (lit "-") = false -> 0 <= value)
    /\ (startswith (group1 m) (lit "-") = true -> value <= 0)
    /\ _parse_svg_length (Some raw_value)
       = if endswith (unit_of raw_value m) (lit "%") then Ok 0
         else match dict_get _SVG_UNIT_TO_PX (unit_of raw_value m) with
              | Some factor => Ok (value * factor)
              | None => Ok value
              end.
Proof.
  intro Hm.
  destruct (length_re_match_shape raw_value m Hm)
    as (blank & sign & whole & dot & digits & rest
        & Hraw & Hg & _ & _ & [Hs Hsl] & Hw & [Hd Hdl] & [Hdg Hdgl]).
  destruct (py_float_token sign whole dot digits Hs Hsl Hw Hd Hdl Hdg Hdgl)
    as (value & Ev & Hv & Hv').
  rewrite <- Hg in Ev, Hv, Hv'.
  exists value. split; [exact Ev|]. split; [exact Hv|]. split; [exact Hv'|].
  unfold _parse_svg_length.
  destruct raw_value as [|c raw'].
  { destruct digits; [simpl in Hdgl; lia|].
    destruct blank, sign, whole, dot; discriminate Hraw. }
  rewrite Hm, Ev. reflexivity.
Qed.


(** Without a minus sign in front of the token the length is not
    negative. *)
Lemma parse_svg_length_nonneg (raw_value : option pystr) :
  has_minus_token raw_value = false ->
  exists v, _parse_svg_length raw_value = Ok v /\ 0 <= v.
Proof.
  intro Hminus.
  destruct raw_value as [raw|]; [|exists 0; split; [reflexivity|apply Qle_refl]].
  simpl in Hminus.
  destruct (_LENGTH_RE_match raw) as [m|] eqn:Hm.
  - destruct (parse_svg_length_matched raw m Hm) as (value & _ & Hv & _ & ->).
    specialize (Hv Hminus).
    destruct (endswith _ _); [exists 0; split; [reflexivity|apply Qle_refl]|].
    destruct (dict_get _ _) as [factor|] eqn:Ef.
    + exists (value * factor). split; [reflexivity|].
      pose proof (unit_factor_pos _ _ Ef). nra.
    + exists value. split; [reflexivity|exact Hv].
  - exists 0. unfold _parse_svg_length. rewrite Hm.
    split; [destruct raw; reflexivity|apply Qle_refl].
Qed.

(** With a minus sign in front of the token the length is not
    positive. *)
Lemma parse_svg_length_nonpos (raw_value : option pystr) :
  has_minus_token raw_value = true ->
  exists v, _parse_svg_length raw_value = Ok v /\ v <= 0.
Proof.
  intro Hminus.
  destruct raw_value as [raw|]; [|discriminate].
  simpl in Hminus.
  destruct (_LENGTH_RE_match raw) as [m|] eqn:Hm; [|discriminate].
  destruct (parse_svg_length_matched raw m Hm) as (value & _ & _ & Hv & ->).
  specialize (Hv Hminus).
  destruct (endswith _ _); [exists 0; split; [reflexivity|apply Qle_refl]|].
  destruct (dict_get _ _) as [factor|] eqn:Ef.
  - exists (value * factor). split; [reflexivity|].
    pose proof (unit_factor_pos _ _ Ef). nra.
  - exists value. split; [reflexivity|exact Hv].
Qed.

(** C4.  The unit table is the fixed one ([px] and the empty unit 1,
    [pt] 96/72, [pc] 16, [mm] 96/25.4, [cm] 96/2.54, [in] 96, and no
    other key).  For every text in which [_LENGTH_RE] finds a token,
    [float] reads the token as some [value] and the result is 0 when the
    unit text ends with a percent sign, [value * factor] when the unit
    is in the table, and [value] itself for any other unit.  So
    ["10pt"] gives 10 * 96/72, ["5cm"] gives 5 * 96/2.54, ["50%"] gives 0
    and ["10foo"] gives 10. *)
Theorem parse_svg_length_units :
  (dict_get _SVG_UNIT_TO_PX (lit "") = Some 1
   /\ dict_get _SVG_UNIT_TO_PX (lit "px") = Some 1
   /\ dict_get _SVG_UNIT_TO_PX (lit "pt") = Some (96 / 72)
   /\ dict_get _SVG_UNIT_TO_PX (lit "pc") = Some 16
   /\ dict_get _SVG_UNIT_TO_PX (lit "mm") = Some (96 / (254 # 10))
   /\ dict_get _SVG_UNIT_TO_PX (lit "cm") = Some (96 / (254 # 100))
   /\ dict_get _SVG_UNIT_TO_PX (lit "in") = Some 96
   /\ forall unit factor,
        dict_get _SVG_UNIT_TO_PX unit = Some factor ->
        In unit [lit ""; lit "px"; lit "pt"; lit "pc"; lit "mm"; lit "cm"; lit "in"])
  /\ (forall raw_value m,
        _LENGTH_RE_match raw_value = Some m ->
        exists value,
          py_float (group1 m) = Some value
          /\ (endswith (unit_of raw_value m) (lit "%") = true ->
              _parse_svg_length (Some raw_value) = Ok 0)
          /\ (forall factor,
                endswith (unit_of raw_value m) (lit "%") = false ->
                dict_get _SVG_UNIT_TO_PX (unit_of raw_value m) = Some factor ->
                _parse_svg_length (Some raw_value) = Ok (value * factor))
          /\ (endswith (unit_of raw_value m) (lit "%") = false ->
              dict_get _SVG_UNIT_TO_PX (unit_of raw_value m) = None ->
              _parse_svg_length (Some raw_value) = Ok value))
  /\ parses_to "10pt" (10 * (96 / 72))
  /\ parses_to "5cm" (5 * (96 / (254 # 100)))
  /\ parses_to "10" 10
  /\ parses_to "10px" 10
  /\ parses_to "10pc" (10 * 16)
  /\ parses_to "10mm" (10 * (96 / (254 # 10)))
  /\ parses_to "10in" (10 * 96)
  /\ parses_to "50%" 0
  /\ parses_to "10foo" 10.
Proof.
  split.
  { repeat (split; [reflexivity|]).
    intros unit factor. unfold _SVG_UNIT_TO_PX. cbn [dict_get].
    assert (forall a b, str_eqb a b = true -> a = b) as Heq.
    { induction a as [|x a IH]; destruct b as [|y b]; simpl; intro H;
        try discriminate; [reflexivity|].
      apply andb_true_iff in H as [Hx H].
      apply Ascii.eqb_eq in Hx as ->. rewrite (IH b H). reflexivity. }
    repeat match goal with
           | |- context [str_eqb ?k unit] =>
               destruct (str_eqb k unit) eqn:E;
               [intros _; apply Heq in E; rewrite <- E; simpl; auto 10|clear E]
           end.
    discriminate. }
  split.
  { intros raw_value m Hm.
    destruct (parse_svg_length_matched raw_value m Hm) as (value & Ev & _ & _ & ->).
    exists value. split; [exact Ev|].
    split; [intros ->; reflexivity|].
    split; [intros factor -> ->; reflexivity|intros -> ->; reflexivity]. }
  repeat split; (eexists; split; [vm_compute; reflexivity|reflexivity]).
Qed.

(** ** Dimension resolver *)

(** The bounding box is consulted only when it has exactly four
    components. *)
Lemma extract_without_viewbox_fallback (tree : Tree) (width height : Q) :
  _parse_svg_length (tree_get tree "width") = Ok width ->
  _parse_svg_length (tree_get tree "height") = Ok height ->
  (forall view_box,
      tree_get tree "viewBox" = Some view_box ->
      List.length (viewbox_components view_box) <> 4%nat
      \/ (0 < width /\ 0 < height)) ->
  _extract_svg_dimensions tree = Ok (width, height).
Proof.
  intros Ew Eh Hvb. unfold _extract_svg_dimensions.
  rewrite Ew, Eh. cbn [rbind].
  destruct (tree_get tree "viewBox") as [[|c vb]|]; try reflexivity.
  specialize (Hvb (c :: vb) eq_refl).
  destruct (viewbox_components (c :: vb)) as [|c1 [|c2 [|c3 [|c4 [|c5 cs]]]]];
    try reflexivity.
  destruct Hvb as [Hn | [Hw Hh]]; [exfalso; apply Hn; reflexivity|].
  apply Qle_bool_false in Hw, Hh. rewrite Hw, Hh. reflexivity.
Qed.

(** C5.  (1) When the [width] and [height] attributes both parse to
    positive lengths they are returned as they are, whatever the
    [viewBox] attribute holds.  (2) With no [width] and no [height]
    attribute and the [viewBox] ["0 0 200 100"] the result is
    [(200, 100)].  (3) A [viewBox] that does not split into exactly four
    components changes nothing; with no [width] and no [height]
    attribute and three components the result is [(0, 0)]. *)
Theorem extract_svg_dimensions_sources :
  (forall tree width height,
      _parse_svg_length (tree_get tree "width") = Ok width ->
      _parse_svg_length (tree_get tree "height") = Ok height ->
      0 < width -> 0 < height ->
      _extract_svg_dimensions tree = Ok (width, height))
  /\ (forall tree,
         tree_get tree "width" = None ->
         tree_get tree "height" = None ->
         tree_get tree "viewBox" = Some (lit "0 0 200 100") ->
         exists width height,
           _extract_svg_dimensions tree = Ok (width, height)
           /\ width == 200 /\ height == 100)
  /\ (forall tree view_box width height,
         tree_get tree "viewBox" = Some view_box ->
         List.length (viewbox_components view_box) <> 4%nat ->
         _parse_svg_length (tree_get tree "width") = Ok width ->
         _parse_svg_length (tree_get tree "height") = Ok height ->
         _extract_svg_dimensions tree = Ok (width, height))
  /\ (forall tree view_box,
         tree_get tree "width" = None ->
         tree_get tree "height" = None ->
         tree_get tree "viewBox" = Some view_box ->
         List.length (viewbox_components view_box) = 3%nat ->
         _extract_svg_dimensions tree = Ok (0, 0)).
Proof.
  split; [|split; [|split]].
  - intros tree width height Ew Eh Hw Hh.
    apply extract_without_viewbox_fallback; try assumption.
    intros view_box _. right. split; assumption.
  - intros tree Ew Eh Ev. unfold _extract_svg_dimensions.
    rewrite Ew, Eh, Ev.
    eexists _, _. split; [vm_compute; reflexivity|].
    split; reflexivity.
  - intros tree view_box width height Ev Hn Ew Eh.
    apply extract_without_viewbox_fallback; try assumption.
    intros view_box' Ev'. left. rewrite Ev in Ev'. injection Ev' as <-. exact Hn.
  - intros tree view_box Ew Eh Ev Hn.
    apply extract_without_viewbox_fallback.
    + rewrite Ew. reflexivity.
    + rewrite Eh. reflexivity.
    + intros view_box' Ev'. left. rewrite Ev in Ev'. injection Ev' as <-.
      rewrite Hn. discriminate.
Qed.

(** The document of the examples: [width="300" height="150"] with a
    [viewBox] of another size. *)
Lemma extract_svg_dimensions_sources_witness :
  _extract_svg_dimensions
    [(lit "width", lit "300"); (lit "height", lit "150px");
     (lit "viewBox", lit "0 0 200 100")]
  = Ok (300 * 1, 150 * 1).
Proof.
  apply (proj1 extract_svg_dimensions_sources);
    [vm_compute; reflexivity | vm_compute; reflexivity
     | reflexivity | reflexivity].
Defined.

(** C9, as stated, fails: [_LENGTH_RE] accepts a sign, so ["-5"] parses
    to -5, and a document with [width="-5" height="-3px"] and no
    [viewBox] has the intrinsic size (-5, -3). *)
Lemma negative_length_returned :
  (exists v, _parse_svg_length (Some (lit "-5")) = Ok v /\ v < 0)
  /\ (exists width height,
         _extract_svg_dimensions
           [(lit "width", lit "-5"); (lit "height", lit "-3px")]
         = Ok (width, height)
         /\ width == - (5) /\ height == - (3) /\ width < 0 /\ height < 0).
Proof.
  split.
  - eexists. split; [vm_compute; reflexivity|reflexivity].
  - eexists _, _. split; [vm_compute; reflexivity|].
    repeat split; reflexivity.
Qed.

(** C9, amended.  [_parse_svg_length] raises nothing; it returns a
    non-negative number for every attribute whose numeric token does
    not start with a minus sign, and a number that is negative or zero
    for a token that does.  [_extract_svg_dimensions] returns a
    non-negative width and height for every document in which neither
    the [width] attribute, nor the [height] attribute, nor the third or
    fourth component of a four-component [viewBox] has a token with a
    minus sign. *)
Theorem lengths_nonnegative_without_minus_sign :
  (forall raw_value,
      has_minus_token raw_value = false ->
      exists v, _parse_svg_length raw_value = Ok v /\ 0 <= v)
  /\ (forall raw_value,
         has_minus_token raw_value = true ->
         exists v, _parse_svg_length raw_value = Ok v /\ v <= 0)
  /\ (forall tree,
         has_minus_token (tree_get tree "width") = false ->
         has_minus_token (tree_get tree "height") = false ->
         (forall view_box min_x min_y viewbox_width viewbox_height,
             tree_get tree "viewBox" = Some view_box ->
             viewbox_components view_box
             = [min_x; min_y; viewbox_width; viewbox_height] ->
             has_minus_token (Some viewbox_width) = false
             /\ has_minus_token (Some viewbox_height) = false) ->
         exists width height,
           _extract_svg_dimensions tree = Ok (width, height)
           /\ 0 <= width /\ 0 <= height).
Proof.
  split; [exact parse_svg_length_nonneg|].
  split; [exact parse_svg_length_nonpos|].
  intros tree Hw Hh Hvb.
  destruct (parse_svg_length_nonneg _ Hw) as (width & Ew & Pw).
  destruct (parse_svg_length_nonneg _ Hh) as (height & Eh & Ph).
  unfold _extract_svg_dimensions. rewrite Ew, Eh. cbn [rbind].
  destruct (tree_get tree "viewBox") as [[|c vb]|];
    try (exists width, height; repeat split; assumption).
  specialize (Hvb (c :: vb)).
  destruct (viewbox_components (c :: vb)) as [|c1 [|c2 [|c3 [|c4 [|c5 cs]]]]];
    try (exists width, height; repeat split; assumption).
  destruct (Hvb c1 c2 c3 c4 eq_refl eq_refl) as [H3 H4].
  destruct (parse_svg_length_nonneg (Some c3) H3) as (w3 & E3 & P3).
  destruct (parse_svg_length_nonneg (Some c4) H4) as (w4 & E4 & P4).
  rewrite E3, E4.
  destruct (Qle_bool width 0), (Qle_bool height 0); cbn [rbind];
    eexists _, _; (split; [reflexivity|split; assumption]).
Qed.

Lemma lengths_nonnegative_without_minus_sign_witness :
  exists width height,
    _extract_svg_dimensions
      [(lit "width", lit "+12.5pt"); (lit "viewBox", lit "-10 -10 200 100")]
    = Ok (width, height)
    /\ 0 <= width /\ 0 <= height.
Proof.
  apply (proj2 (proj2 lengths_nonnegative_without_minus_sign)
               [(lit "width", lit "+12.5pt"); (lit "viewBox", lit "-10 -10 200 100")]);
    [reflexivity | reflexivity |].
  intros view_box min_x min_y viewbox_width viewbox_height Hv Hc.
  vm_compute in Hv. injection Hv as <-.
  vm_compute in Hc. injection Hc as <- <- <- <-.
  split; reflexivity.
Defined.

(** ** Bounded fetcher *)



Lemma truthy_false {A : Type} (s : list A) : truthy s = false -> s = [].
Proof. destruct s; [reflexivity|discriminate]. Qed.

Section BoundedFetcherFacts.

Variable settings : Settings.

(** The loop returns only on a stream of chunks without failure, with
    all of them in the buffer, and it has checked the buffer against
    the ceiling unless it added nothing. *)
Lemma read_chunks_ok (events : list stream_event) :
  forall buffer svg_bytes,
    read_chunks settings events buffer = Ok svg_bytes ->
    exists chunks,
      events = map Chunk chunks
      /\ svg_bytes = (buffer ++ List.concat chunks)%list
      /\ (svg_bytes = buffer \/ (len svg_bytes <= max_svg_bytes settings)%Z).
Proof.
  induction events as [|[chunk|e] events IH]; intros buffer svg_bytes H;
    cbn [read_chunks] in H.
  - injection H as <-. exists []. rewrite app_nil_r.
    repeat split. left; reflexivity.
  - destruct (truthy chunk) eqn:Et.
    + destruct (max_svg_bytes settings <? len (buffer ++ chunk))%Z eqn:El;
        [discriminate|].
      apply Z.ltb_ge in El.
      apply IH in H as (chunks & -> & -> & Hb).
      exists (chunk :: chunks). cbn [map List.concat].
      rewrite app_assoc. repeat split.
      right. destruct Hb as [-> | Hb]; assumption.
    + apply truthy_false in Et as ->.
      apply IH in H as (chunks & -> & -> & Hb).
      exists ([] :: chunks). repeat split. exact Hb.
  - discriminate.
Qed.




(** When [_fetch_svg] returns, every check of the body of the [try]
    has passed. *)
Lemma fetch_svg_ok (got : http_outcome) (svg_bytes : bytes) :
  _fetch_svg settings got = Ok svg_bytes ->
  exists response chunks,
    got = inr response
    /\ raise_for_status response = Ok tt
    /\ check_content_length settings response = Ok tt
    /\ iter_content response = map Chunk chunks
    /\ svg_bytes = List.concat chunks
    /\ (len svg_bytes <= max_svg_bytes settings)%Z
    /\ bytes_strip svg_bytes <> [].
Proof.
  unfold _fetch_svg.
  destruct (fetch_body settings got) as [b|e'] eqn:Eb;
    [|destruct (is_RequestException e'); discriminate].
  intro H. injection H as <-.
  unfold fetch_body in Eb. destruct got as [e|response]; [discriminate|].
  destruct (raise_for_status response) as [[]|] eqn:Es; [|discriminate].
  destruct (check_content_length settings response) as [[]|] eqn:Ec;
    [|discriminate].
  cbn [rbind] in Eb.
  destruct (read_chunks settings (iter_content response) []) as [b'|] eqn:Er;
    [|discriminate].
  cbn [rbind] in Eb.
  destruct (truthy (bytes_strip b')) eqn:Et; [|discriminate].
  injection Eb as <-.
  apply read_chunks_ok in Er as (chunks & Hev & Hb & Hlen).
  cbn [app] in Hb.
  assert (bytes_strip b' <> []) as Hne
      by (intro E; rewrite E in Et; discriminate).
  exists response, chunks. repeat split; try assumption.
  destruct Hlen as [-> | Hlen]; [|exact Hlen].
  exfalso. apply Hne. reflexivity.
Qed.

End BoundedFetcherFacts.







(** ** Pruner *)

Lemma stale_iff (cutoff : Z) (blob : Blob) :
  stale cutoff blob = true
  <-> exists created, time_created blob = Some created /\ (created < cutoff)%Z.
Proof.
  unfold stale. destruct (time_created blob) as [t|]; split.
  - intro H. exists t. split; [reflexivity|]. now apply Z.ltb_lt.
  - intros (t' & E & H). injection E as <-. now apply Z.ltb_lt.
  - discriminate.
  - intros (t' & E & _). discriminate.
Qed.

(** The loop deletes the stale objects listed before the first fault,
    counts each of them once, and stops with that fault. *)
Lemma prune_loop_spec (cutoff : Z) (listing : list listing_event) :
  forall st,
    prune_loop cutoff listing st
    = (mkPruneState
         (deleted st + Z.of_nat (List.length (stale_before_fault cutoff listing)))
         (removed st ++ stale_before_fault cutoff listing),
       first_fault cutoff listing).
Proof.
  induction listing as [|[blob|e] listing IH]; intros [n r];
    cbn [prune_loop stale_before_fault first_fault deleted removed].
  - rewrite app_nil_r. cbn. rewrite Z.add_0_r. reflexivity.
  - unfold stale. destruct (time_created blob) as [created|].
    + destruct (created <? cutoff)%Z.
      * destruct (delete blob).
        { rewrite app_nil_r. cbn. rewrite Z.add_0_r. reflexivity. }
        rewrite IH. cbn [deleted removed List.length].
        rewrite <- app_assoc. cbn [app].
        f_equal. f_equal. lia.
      * apply IH.
    + apply IH.
  - rewrite app_nil_r. cbn. rewrite Z.add_0_r. reflexivity.
Qed.

(** What [_prune_old_files] returns and leaves behind. *)
Lemma prune_old_files_spec (settings : Settings) (listing : list listing_event)
      (now : Z) :
  _prune_old_files settings listing now
  = (stale_before_fault (cutoff_of settings now) listing,
     match first_fault (cutoff_of settings now) listing with
     | None =>
         Ok (Z.of_nat (List.length (stale_before_fault (cutoff_of settings now) listing)))
     | Some e =>
         if is_GoogleAPIError e
         then Ok (Z.of_nat (List.length
                              (stale_before_fault (cutoff_of settings now) listing)))
         else Raise e
     end).
Proof.
  unfold _prune_old_files. rewrite prune_loop_spec.
  cbn [deleted removed app]. rewrite Z.add_0_l.
  destruct (first_fault _ _) as [e|]; [|reflexivity].
  destruct (is_GoogleAPIError e); reflexivity.
Qed.

Lemma stale_before_fault_sound (cutoff : Z) (listing : list listing_event)
      (blob : Blob) :
  In blob (stale_before_fault cutoff listing) ->
  In blob (listed listing) /\ stale cutoff blob = true.
Proof.
  induction listing as [|[b|e] listing IH]; cbn [stale_before_fault listed];
    intro H; try contradiction.
  destruct (stale cutoff b) eqn:Es.
  - destruct (delete b); [contradiction|].
    destruct H as [<- | H]; [split; [left; reflexivity|exact Es]|].
    destruct (IH H) as [Hin Hs]. split; [right; exact Hin|exact Hs].
  - destruct (IH H) as [Hin Hs]. split; [right; exact Hin|exact Hs].
Qed.

Lemma stale_before_fault_complete (cutoff : Z) (listing : list listing_event)
      (blob : Blob) :
  first_fault cutoff listing = None ->
  In blob (listed listing) -> stale cutoff blob = true ->
  In blob (stale_before_fault cutoff listing).
Proof.
  induction listing as [|[b|e] listing IH];
    cbn [stale_before_fault listed first_fault]; intros Hf Hin Hs;
    try contradiction; try discriminate.
  destruct (stale cutoff b) eqn:Es.
  - destruct (delete b); [discriminate|].
    destruct Hin as [-> | Hin]; [left; reflexivity|right; exact (IH Hf Hin Hs)].
  - destruct Hin as [-> | Hin]; [congruence|exact (IH Hf Hin Hs)].
Qed.

(** C7.  In every pass, an object is deleted only if it was listed and
    has a creation time strictly earlier than
    [now - prune_after_seconds] (so never without a creation time,
    never at the cutoff exactly), and the count returned is the number
    of objects deleted in this pass.  In a pass that meets no store
    fault the converse holds as well: every listed object with such a
    creation time is deleted. *)
Theorem prune_deletes_exactly_the_stale
        (settings : Settings) (now : Z) (listing : list listing_event) :
  exists removed result,
    _prune_old_files settings listing now = (removed, result)
    /\ (forall blob,
           In blob removed ->
           In blob (listed listing)
           /\ (exists created,
                  time_created blob = Some created
                  /\ (created < now - prune_after_seconds settings * 1000000)%Z)
           /\ time_created blob <> None
           /\ time_created blob
              <> Some (now - prune_after_seconds settings * 1000000)%Z)
    /\ (forall count, result = Ok count -> count = Z.of_nat (List.length removed))
    /\ (first_fault (now - prune_after_seconds settings * 1000000)%Z listing = None ->
        result = Ok (Z.of_nat (List.length removed))
        /\ forall blob,
            In blob (listed listing) ->
            (exists created,
                time_created blob = Some created
                /\ (created < now - prune_after_seconds settings * 1000000)%Z) ->
            In blob removed).
Proof.
  rewrite prune_old_files_spec. unfold cutoff_of, timedelta_seconds.
  set (cutoff := (now - prune_after_seconds settings * 1000000)%Z).
  eexists _, _. split; [reflexivity|]. split; [|split].
  - intros blob Hin.
    apply stale_before_fault_sound in Hin as [Hin Hs].
    apply stale_iff in Hs as (created & Ec & Hlt).
    split; [exact Hin|]. split; [exists created; split; assumption|].
    rewrite Ec. split; [discriminate|]. intro E. injection E as E. lia.
  - intros count. destruct (first_fault cutoff listing) as [e|].
    + destruct (is_GoogleAPIError e); [|discriminate].
      intro H. injection H as <-. reflexivity.
    + intro H. injection H as <-. reflexivity.
  - intro Hf. rewrite Hf. split; [reflexivity|].
    intros blob Hin Hs. apply stale_iff in Hs.
    exact (stale_before_fault_complete cutoff listing blob Hf Hin Hs).
Qed.

Lemma prune_deletes_exactly_the_stale_witness :
  _prune_old_files default_settings sample_listing 1000000000000000
  = ([ {| name := lit "renders/c.png";
          time_created := Some 999913599999999%Z; delete := None |} ],
     Ok 1%Z)
  /\ first_fault (1000000000000000 - prune_after_seconds default_settings * 1000000)%Z
                 sample_listing = None
  /\ exists removed result,
      _prune_old_files default_settings sample_listing 1000000000000000
      = (removed, result)
      /\ (forall blob,
             In blob removed ->
             In blob (listed sample_listing)
             /\ (exists created,
                    time_created blob = Some created
                    /\ (created < 1000000000000000
                                  - prune_after_seconds default_settings * 1000000)%Z)
             /\ time_created blob <> None
             /\ time_created blob
                <> Some (1000000000000000
                         - prune_after_seconds default_settings * 1000000)%Z)
      /\ (forall count, result = Ok count -> count = Z.of_nat (List.length removed))
      /\ (first_fault (1000000000000000
                        - prune_after_seconds default_settings * 1000000)%Z
                      sample_listing = None ->
          result = Ok (Z.of_nat (List.length removed))
          /\ forall blob,
              In blob (listed sample_listing) ->
              (exists created,
                  time_created blob = Some created
                  /\ (created < 1000000000000000
                                - prune_after_seconds default_settings * 1000000)%Z) ->
              In blob removed).
Proof.
  split; [reflexivity|]. split; [reflexivity|].
  exact (prune_deletes_exactly_the_stale
           default_settings 1000000000000000 sample_listing).
Defined.

(** ** The route after a successful render *)




(** ** The two worked examples of the service's size rules *)

Example scale_raised_to_min_width :
  _compute_scale default_settings (100 # 1) (50 # 1)
  = ([100 # 1], Ok (512, 256)%Z).
Proof. reflexivity. Qed.

Example scale_lowered_to_max_width :
  _compute_scale default_settings (10000 # 1) (100 # 1)
  = ([10000 # 1], Ok (4096, 41)%Z).
Proof. reflexivity. Qed.

(** A tie is rounded to the even neighbour. *)
Example round_half_to_even :
  Py.round (5 # 2) = 2%Z /\ Py.round (7 # 2) = 4%Z /\ Py.round (-5 # 2) = (-2)%Z.
Proof. repeat split; reflexivity. Qed.

(** * Further properties of the code *)

(** ** Text equality *)

Lemma str_eqb_eq (a b : pystr) : str_eqb a b = true <-> a = b.
Proof.
  revert b. induction a as [|x a IH]; destruct b as [|y b]; simpl;
    split; intro H; try discriminate; try reflexivity.
  - apply andb_true_iff in H as [Hx H].
    apply Ascii.eqb_eq in Hx as ->. apply IH in H as ->. reflexivity.
  - injection H as -> ->. rewrite Ascii.eqb_refl. simpl. apply IH. reflexivity.
Qed.

(** ** Authorization *)

(** X1.  A request is authorized exactly when a key is configured, the
    header is present, is not empty, and equals the configured key
    character for character. *)
Theorem is_authorized_iff (settings : Settings) (provided_key : option pystr) :
  _is_authorized settings provided_key = true
  <-> exists expected,
      api_key settings = Some expected
      /\ provided_key = Some (lit expected)
      /\ expected <> ""%string.
Proof.
  unfold _is_authorized. split.
  - destruct provided_key as [key|]; [|discriminate].
    destruct (api_key settings) as [expected|]; [|discriminate].
    intro H. apply andb_true_iff in H as [Ht He].
    apply str_eqb_eq in He as ->.
    exists expected. repeat split. intros ->. discriminate.
  - intros (expected & -> & -> & Hne).
    apply andb_true_iff. split; [|apply str_eqb_eq; reflexivity].
    destruct expected; [contradiction|reflexivity].
Qed.

(** ** Scale resolver: when it raises, and what it returns exactly *)

Lemma round_compat (x y : Q) : x == y -> Py.round x = Py.round y.
Proof.
  intro E. unfold Py.round.
  rewrite (Qfloor_comp x y E).
  assert (Qcompare (x - inject_Z (Qfloor y)) (1 # 2)
          = Qcompare (y - inject_Z (Qfloor y)) (1 # 2)) as ->
      by (apply Qcompare_comp; [rewrite E; reflexivity|reflexivity]).
  reflexivity.
Qed.

Lemma fallback_canvas_kept (settings : Settings) (width height : Q) :
  0 < width -> 0 < height ->
  fallback_canvas settings width height = (width, height).
Proof.
  intros Hw Hh. unfold fallback_canvas.
  apply Qle_bool_false in Hw, Hh. rewrite Hw, Hh. reflexivity.
Qed.



Lemma compute_scale_of_canvas (settings : Settings) (width height w h : Q)
      (ds : list Q) (s : Q) :
  fallback_canvas settings width height = (w, h) ->
  resolve_scale settings w h = (ds, Ok s) ->
  _compute_scale settings width height = (ds, Ok (scaled_size w h s)).
Proof.
  intros Ec Er. unfold _compute_scale. rewrite Ec, Er, bind_ok.
  cbn [ret fst snd]. rewrite app_nil_r. reflexivity.
Qed.





(** On a canvas within the three bounds no step fires. *)
Lemma resolve_scale_within_bounds (settings : Settings) (width height : Q) :
  inject_Z (min_output_width settings) <= width ->
  width <= inject_Z (max_output_width settings) ->
  height <= inject_Z (max_output_height settings) ->
  resolve_scale settings width height = ([], Ok 1).
Proof.
  intros Hmin Hmw Hmh.
  unfold resolve_scale, min_width_step, max_width_step, max_height_step.
  assert (Qlt_bool width (inject_Z (min_output_width settings)) = false)
    as -> by (apply Qlt_bool_false; exact Hmin).
  rewrite bind_ret_l.
  assert (Qlt_bool (inject_Z (max_output_width settings)) (width * 1) = false)
    as -> by (apply Qlt_bool_false; lra).
  rewrite bind_ret_l.
  assert (Qlt_bool (inject_Z (max_output_height settings)) (height * 1) = false)
    as -> by (apply Qlt_bool_false; lra).
  reflexivity.
Qed.

(** X3.  A size already within the bounds is kept: no division is executed
    and each side is only rounded.  In particular an integer size
    within the bounds is returned as it is. *)
Theorem compute_scale_keeps_size_within_bounds
        (settings : Settings) (width height : Q) :
  0 < height ->
  inject_Z (min_output_width settings) <= width ->
  0 < width ->
  width <= inject_Z (max_output_width settings) ->
  height <= inject_Z (max_output_height settings) ->
  _compute_scale settings width height
  = ([], Ok (Z.max 1 (Py.round width), Z.max 1 (Py.round height)))
  /\ (forall n m,
         width == inject_Z n -> height == inject_Z m ->
         _compute_scale settings width height = ([], Ok (n, m))).
Proof.
  intros Hh Hmin Hw Hmw Hmh.
  assert (_compute_scale settings width height
          = ([], Ok (Z.max 1 (Py.round width), Z.max 1 (Py.round height)))) as E.
  { rewrite (compute_scale_of_canvas _ _ _ _ _ _ _
               (fallback_canvas_kept settings width height Hw Hh)
               (resolve_scale_within_bounds settings width height Hmin Hmw Hmh)).
    unfold scaled_size.
    rewrite (round_compat (width * 1) width) by lra.
    rewrite (round_compat (height * 1) height) by lra.
    reflexivity. }
  split; [exact E|].
  intros n m En Em. rewrite E.
  rewrite (round_eq_int width n En), (round_eq_int height m Em).
  assert (0 < n)%Z by (rewrite Zlt_Qlt; change (inject_Z 0) with 0; lra).
  assert (0 < m)%Z by (rewrite Zlt_Qlt; change (inject_Z 0) with 0; lra).
  rewrite !Z.max_r by lia. reflexivity.
Qed.

Lemma compute_scale_keeps_size_within_bounds_witness :
  _compute_scale default_settings (inject_Z 800) (inject_Z 600)
  = ([], Ok (Z.max 1 (Py.round (inject_Z 800)), Z.max 1 (Py.round (inject_Z 600))))
  /\ (forall n m,
         inject_Z 800 == inject_Z n -> inject_Z 600 == inject_Z m ->
         _compute_scale default_settings (inject_Z 800) (inject_Z 600)
         = ([], Ok (n, m))).
Proof.
  apply (compute_scale_keeps_size_within_bounds default_settings
           (inject_Z 800) (inject_Z 600));
    unfold Qlt, Qle; simpl; lia.
Defined.







(** ** Conversion *)


(** What [_compute_scale] returns is a pair of integers from 1 up. *)
Lemma compute_scale_ok_ge_1 (settings : Settings) (width height : Q)
      (target_width target_height : Z) :
  outcome (_compute_scale settings width height) = Ok (target_width, target_height) ->
  (1 <= target_width)%Z /\ (1 <= target_height)%Z.
Proof.
  unfold _compute_scale.
  destruct (fallback_canvas settings width height) as [w h].
  destruct (resolve_scale settings w h) as [ds [s|e]]; cbn; [|discriminate].
  intro H. injection H as <- <-. split; apply Z.le_max_l.
Qed.

(** Under maxima of at least 1 it stays below them. *)
Lemma compute_scale_ok_le_max (settings : Settings) (width height : Q)
      (target_width target_height : Z) :
  (1 <= max_output_width settings)%Z ->
  (1 <= max_output_height settings)%Z ->
  outcome (_compute_scale settings width height) = Ok (target_width, target_height) ->
  (target_width <= max_output_width settings)%Z
  /\ (target_height <= max_output_height settings)%Z.
Proof.
  intros Hmw Hmh Hok.
  assert (forall w h,
             fallback_canvas settings width height = (w, h) ->
             0 < w -> 0 < h ->
             (target_width <= max_output_width settings)%Z
             /\ (target_height <= max_output_height settings)%Z) as Hpos.
  { intros w h Ec Hw Hh.
    destruct (resolve_scale_pos settings w h Hw Hh)
      as (ds & s & Er & _ & _ & Bw & Bh & _).
    rewrite (compute_scale_of_canvas _ _ _ _ _ _ _ Ec Er) in Hok.
    unfold outcome, scaled_size in Hok. cbn [snd] in Hok.
    injection Hok as <- <-.
    split; apply Z.max_lub; try assumption; apply round_le_int; assumption. }
  destruct (fallback_canvas_cases settings width height)
    as [(Hw & Hh & Ec) | (_ & Ec)]; [exact (Hpos _ _ Ec Hw Hh)|].
  destruct (Z_lt_le_dec 0 (min_output_width settings)) as [Hmin | Hmin].
  - apply (Hpos _ _ Ec); change 0 with (inject_Z 0); rewrite <- Zlt_Qlt; exact Hmin.
  - rewrite (compute_scale_nonpos_square settings width height Ec) in Hok.
    + injection Hok as <- <-. split; assumption.
    + change 0 with (inject_Z 0). rewrite <- Zle_Qle. exact Hmin.
    + change 0 with (inject_Z 0). rewrite <- Zlt_Qlt. lia.
    + change 0 with (inject_Z 0). rewrite <- Zlt_Qlt. lia.
Qed.



(** ** The route *)

Lemma convert_ok (settings : Settings) (world : World) (svg_bytes png_bytes : bytes)
      (target_width target_height : Z) :
  _convert_svg_to_png settings world svg_bytes
  = Ok (png_bytes, target_width, target_height) ->
  exists tree width height,
    cairo_Tree world svg_bytes = Ok tree
    /\ _extract_svg_dimensions tree = Ok (width, height)
    /\ outcome (_compute_scale settings width height) = Ok (target_width, target_height)
    /\ svg2png world svg_bytes target_width target_height = Ok png_bytes.
Proof.
  unfold _convert_svg_to_png.
  destruct (cairo_Tree world svg_bytes) as [tree|] eqn:Et; cbn [rbind];
    [|discriminate].
  destruct (_extract_svg_dimensions tree) as [[w h]|] eqn:Ee; cbn [rbind fst snd];
    [|discriminate].
  destruct (outcome (_compute_scale settings w h)) as [[tw th]|] eqn:Ec;
    cbn [rbind fst snd]; [|discriminate].
  destruct (svg2png world svg_bytes tw th) as [png|] eqn:Ep; cbn [rbind];
    [|discriminate].
  intro H. injection H as <- <- <-.
  exists tree, w, h. repeat split; try assumption; reflexivity.
Qed.

Lemma upload_ok (settings : Settings) (world : World) (png_bytes : bytes)
      (blob_name signed_url : pystr) :
  _upload_png settings world png_bytes = Ok (blob_name, signed_url) ->
  blob_name = (OBJECT_PREFIX ++ lit "/" ++ uuid4_hex world ++ lit ".png")%list
  /\ upload_from_string world blob_name png_bytes = None
  /\ generate_signed_url world blob_name (signed_url_ttl_seconds settings)
     = Ok signed_url.
Proof.
  unfold _upload_png.
  destruct (upload_from_string world _ png_bytes) eqn:Eu; [discriminate|].
  destruct (generate_signed_url world _ _) as [signed|] eqn:Es; cbn [rbind];
    [|discriminate].
  intro H. injection H as <- <-. repeat split; assumption.
Qed.

Lemma render_steps_ok (settings : Settings) (world : World)
      (svg_url blob_name signed_url : pystr) (target_width target_height : Z) :
  render_steps settings world svg_url
  = Ok (blob_name, signed_url, target_width, target_height) ->
  exists svg_bytes png_bytes,
    _fetch_svg settings (requests_get world svg_url) = Ok svg_bytes
    /\ _convert_svg_to_png settings world svg_bytes
       = Ok (png_bytes, target_width, target_height)
    /\ _upload_png settings world png_bytes = Ok (blob_name, signed_url).
Proof.
  unfold render_steps.
  destruct (_fetch_svg settings (requests_get world svg_url)) as [svg|] eqn:Ef;
    cbn [rbind]; [|discriminate].
  destruct (_convert_svg_to_png settings world svg) as [[[png tw] th]|] eqn:Ec;
    cbn [rbind fst snd]; [|discriminate].
  destruct (_upload_png settings world png) as [[name signed]|] eqn:Eu;
    cbn [rbind fst snd]; [|discriminate].
  intro H. injection H as <- <- <- <-.
  exists svg, png. repeat split; try assumption; reflexivity.
Qed.

(** The response of [render_svg], branch by branch. *)
Lemma render_svg_cases (settings : Settings) (world : World) (request : Request) :
  (_is_authorized settings (header_api_key request) = false
   /\ render_svg settings world request = Ok (ErrorBody "Unauthorized", 401%Z))
  \/ (_is_authorized settings (header_api_key request) = true
      /\ (forall svg_url,
             payload_svg_url request = Some (JString svg_url) ->
             truthy svg_url && _validate_url world svg_url = false)
      /\ render_svg settings world request
         = Ok (ErrorBody "svg_url must be a valid HTTP(S) URL.", 400%Z))
  \/ (exists svg_url,
         _is_authorized settings (header_api_key request) = true
         /\ payload_svg_url request = Some (JString svg_url)
         /\ truthy svg_url && _validate_url world svg_url = true
         /\ render_svg settings world request
            = match render_steps settings world svg_url with
              | Raise e =>
                  if is_ValueError e
                  then Ok (ErrorBody (exn_text e), 400%Z)
                  else if is_GoogleAPIError e || is_OSError e
                       then Ok (ErrorBody "Failed to render SVG.", 500%Z)
                       else Raise e
              | Ok (blob_name, signed_url, width, height) =>
                  pruned <~ snd (_prune_old_files settings (list_blobs world)
                                                  (utc_now world)) ;;
                  Ok (RenderBody signed_url blob_name width height pruned, 200%Z)
              end).
Proof.
  unfold render_svg.
  destruct (_is_authorized settings (header_api_key request)) eqn:Ea; cbn [negb].
  2:{ left. split; reflexivity. }
  right.
  destruct (payload_svg_url request) as [[svg_url|]|] eqn:Ep.
  - destruct (truthy svg_url && _validate_url world svg_url) eqn:Ev.
    + right. exists svg_url. repeat split; try assumption.
    + left. split; [reflexivity|]. split; [|reflexivity].
      intros url H. injection H as <-. exact Ev.
  - left. split; [reflexivity|]. split; [|reflexivity]. intros url H. discriminate.
  - left. split; [reflexivity|]. split; [|reflexivity]. intros url H. discriminate.
Qed.

(** X8.  Every response of [/render] has status 200, 400, 401 or 500.  The
    status is 401 exactly when the key check fails, whatever the body
    of the request and whatever the collaborators would answer.  A 500
    carries the fixed text ["Failed to render SVG."] and nothing of the
    exception; a 200 carries a render body. *)
Theorem render_svg_status_codes
        (settings : Settings) (world : World) (request : Request)
        (response_body : body) (status : Z) :
  render_svg settings world request = Ok (response_body, status) ->
  (status = 200 \/ status = 400 \/ status = 401 \/ status = 500)%Z
  /\ (status = 401%Z <-> _is_authorized settings (header_api_key request) = false)
  /\ (status = 401%Z -> response_body = ErrorBody "Unauthorized")
  /\ (status = 500%Z -> response_body = ErrorBody "Failed to render SVG.")
  /\ (status = 400%Z -> exists text, response_body = ErrorBody text)
  /\ (status = 200%Z ->
      exists png_url object_name width height pruned_files,
        response_body = RenderBody png_url object_name width height pruned_files).
Proof.
  intro H.
  destruct (render_svg_cases settings world request)
    as [[Ha E] | [(Ha & _ & E) | (svg_url & Ha & _ & _ & E)]]; rewrite E in H.
  - injection H as <- <-.
    repeat split; try discriminate; auto.
  - injection H as <- <-. rewrite Ha.
    repeat split; try discriminate; auto. intros _. eexists. reflexivity.
  - rewrite Ha.
    destruct (render_steps settings world svg_url) as [[[[name signed] w] h]|e].
    + destruct (snd (_prune_old_files settings (list_blobs world) (utc_now world)))
        as [pruned|]; cbn [rbind] in H; [|discriminate].
      injection H as <- <-.
      repeat split; try discriminate; auto.
      intros _. eexists _, _, _, _, _. reflexivity.
    + destruct (is_ValueError e).
      * injection H as <- <-.
        repeat split; try discriminate; auto. intros _. eexists. reflexivity.
      * destruct (is_GoogleAPIError e || is_OSError e); [|discriminate].
        injection H as <- <-.
        repeat split; try discriminate; auto.
Qed.

(** An oversized document: the status is 400 and the body an error text. *)
Lemma render_svg_status_codes_witness :
  (400 = 200 \/ 400 = 400 \/ 400 = 401 \/ 400 = 500)%Z
  /\ exists text, ErrorBody "SVG exceeds maximum allowed size." = ErrorBody text.
Proof.
  destruct (render_svg_status_codes default_settings
              (sample_world (inr oversized_response) []) sample_request
              (ErrorBody "SVG exceeds maximum allowed size.") 400 eq_refl)
    as (Hcodes & _ & _ & _ & Hbody & _).
  split; [exact Hcodes|exact (Hbody eq_refl)].
Defined.

(** X9.  A 200 response means that every stage ran and succeeded, and its
    fields are what the stages produced: the document was fetched
    within the byte ceiling, parsed, measured and rasterized at the
    target size the scale resolver returned (both sides at least 1, and
    at most the maxima when these are at least 1); the raster was
    stored under [renders/<uuid>.png]; [png_url] is the URL signed for
    that very name with the configured lifetime; [pruned_files] is the
    number of objects the pruning pass deleted. *)
Theorem render_success_contents
        (settings : Settings) (world : World) (request : Request)
        (response_body : body) :
  render_svg settings world request = Ok (response_body, 200%Z) ->
  exists svg_url svg_bytes tree width height png_bytes
         target_width target_height signed_url,
    payload_svg_url request = Some (JString svg_url)
    /\ _is_authorized settings (header_api_key request) = true
    /\ _validate_url world svg_url = true
    /\ _fetch_svg settings (requests_get world svg_url) = Ok svg_bytes
    /\ (len svg_bytes <= max_svg_bytes settings)%Z
    /\ cairo_Tree world svg_bytes = Ok tree
    /\ _extract_svg_dimensions tree = Ok (width, height)
    /\ outcome (_compute_scale settings width height)
       = Ok (target_width, target_height)
    /\ (1 <= target_width)%Z /\ (1 <= target_height)%Z
    /\ ((1 <= max_output_width settings)%Z ->
        (1 <= max_output_height settings)%Z ->
        (target_width <= max_output_width settings)%Z
        /\ (target_height <= max_output_height settings)%Z)
    /\ svg2png world svg_bytes target_width target_height = Ok png_bytes
    /\ upload_from_string world
         (OBJECT_PREFIX ++ lit "/" ++ uuid4_hex world ++ lit ".png")%list
         png_bytes = None
    /\ generate_signed_url world
         (OBJECT_PREFIX ++ lit "/" ++ uuid4_hex world ++ lit ".png")%list
         (signed_url_ttl_seconds settings) = Ok signed_url
    /\ response_body
       = RenderBody signed_url
           (OBJECT_PREFIX ++ lit "/" ++ uuid4_hex world ++ lit ".png")%list
           target_width target_height
           (Z.of_nat (List.length
                        (stale_before_fault (cutoff_of settings (utc_now world))
                                            (list_blobs world)))).
Proof.
  intro H.
  destruct (render_svg_cases settings world request)
    as [[Ha E] | [(Ha & _ & E) | (svg_url & Ha & Hp & Hv & E)]]; rewrite E in H;
    try discriminate.
  destruct (render_steps settings world svg_url) as [[[[name signed] tw] th]|e]
    eqn:Er.
  2:{ destruct (is_ValueError e); [discriminate|].
      destruct (is_GoogleAPIError e || is_OSError e); discriminate. }
  rewrite prune_old_files_spec in H. cbn [snd] in H.
  assert (response_body
          = RenderBody signed name tw th
              (Z.of_nat (List.length
                           (stale_before_fault (cutoff_of settings (utc_now world))
                                               (list_blobs world))))) as Hb.
  { destruct (first_fault _ _) as [e|].
    - destruct (is_GoogleAPIError e); cbn [rbind] in H; [|discriminate].
      injection H as <-. reflexivity.
    - cbn [rbind] in H. injection H as <-. reflexivity. }
  apply render_steps_ok in Er as (svg & png & Ef & Ec & Eu).
  apply convert_ok in Ec as (tree & w & h & Et & Ee & Es & Ep).
  apply upload_ok in Eu as (-> & Eu & Eg).
  pose proof (fetch_svg_ok settings _ _ Ef) as (_ & _ & _ & _ & _ & _ & _ & Hlen & _).
  destruct (compute_scale_ok_ge_1 settings w h tw th Es) as [H1 H2].
  apply andb_true_iff in Hv as [_ Hv].
  exists svg_url, svg, tree, w, h, png, tw, th, signed.
  repeat (split; [assumption|]).
  split; [exact (fun Hmw Hmh => compute_scale_ok_le_max settings w h tw th Hmw Hmh Es)|].
  repeat (split; [assumption|]). exact Hb.
Qed.

Lemma render_success_contents_witness :
  exists response_body svg_url svg_bytes tree width height png_bytes
         target_width target_height signed_url,
    render_svg default_settings
      (sample_world (inr good_response) [Listed (old_blob None)]) sample_request
    = Ok (response_body, 200%Z)
    /\ payload_svg_url sample_request = Some (JString svg_url)
    /\ _fetch_svg default_settings (inr good_response) = Ok svg_bytes
    /\ cairo_Tree (sample_world (inr good_response) [Listed (old_blob None)])
                  svg_bytes = Ok tree
    /\ _extract_svg_dimensions tree = Ok (width, height)
    /\ outcome (_compute_scale default_settings width height)
       = Ok (target_width, target_height)
    /\ svg2png (sample_world (inr good_response) [Listed (old_blob None)])
               svg_bytes target_width target_height = Ok png_bytes
    /\ response_body
       = RenderBody signed_url
           (lit "renders/0123456789abcdef0123456789abcdef.png")
           target_width target_height 1.
Proof.
  destruct (render_success_contents default_settings
              (sample_world (inr good_response) [Listed (old_blob None)])
              sample_request
              (RenderBody (lit "https://storage.example.org/signed")
                 (lit "renders/0123456789abcdef0123456789abcdef.png") 512 256 1)
              eq_refl)
    as (svg_url & svg & tree & w & h & png & tw & th & signed
        & Hp & _ & _ & Hf & _ & Ht & He & Hs & _ & _ & _ & Hr & _ & _ & Hb).
  injection Hb as <- <- <-.
  exists (RenderBody (lit "https://storage.example.org/signed")
            (lit "renders/0123456789abcdef0123456789abcdef.png") 512 256 1),
    svg_url, svg, tree, w, h, png, 512%Z, 256%Z,
    (lit "https://storage.example.org/signed").
  repeat split; assumption || reflexivity.
Defined.



(** ** Bounded fetcher: exactly when it returns *)





(** ** The components of a [viewBox] *)

Lemma forallb_rev {A : Type} (p : A -> bool) (l : list A) :
  forallb p (rev l) = forallb p l.
Proof.
  induction l as [|x l IH]; [reflexivity|].
  cbn [rev forallb]. rewrite forallb_app, IH. cbn [forallb].
  rewrite andb_true_r. apply andb_comm.
Qed.

Lemma filter_drop_while (keep sep : ascii -> bool) (s : pystr) :
  (forall c, sep c = true -> keep c = false) ->
  filter keep (drop_while sep s) = filter keep s.
Proof.
  intro Hsep. induction s as [|c s IH]; [reflexivity|].
  cbn [drop_while]. destruct (sep c) eqn:Ec; [|reflexivity].
  cbn [filter]. rewrite (Hsep c Ec). exact IH.
Qed.

Lemma filter_strip (keep : ascii -> bool) (s : pystr) :
  (forall c, is_space c = true -> keep c = false) ->
  filter keep (strip s) = filter keep s.
Proof.
  intro Hsp. unfold strip.
  rewrite filter_rev, (filter_drop_while keep is_space _ Hsp), filter_rev,
    rev_involutive.
  apply filter_drop_while. exact Hsp.
Qed.

(** The pieces [re_split] cuts, with the piece under construction
    given: none holds a separator, only the first and the last can be
    empty, and together they are the text without its separators. *)
Lemma re_split_pieces (sep : ascii -> bool) (s : pystr) :
  forall in_run piece,
    forallb (fun c => negb (sep c)) piece = true ->
    Forall (fun p => forallb (fun c => negb (sep c)) p = true)
           (re_split sep in_run piece s)
    /\ List.concat (re_split sep in_run piece s)
       = (rev piece ++ filter (fun c => negb (sep c)) s)%list.
Proof.
  induction s as [|c s IH]; intros in_run piece Hp; cbn [re_split filter].
  - split.
    + constructor; [|constructor]. rewrite forallb_rev. exact Hp.
    + cbn. rewrite !app_nil_r. reflexivity.
  - destruct (sep c) eqn:Ec; cbn [negb].
    + destruct in_run.
      * exact (IH true piece Hp).
      * destruct (IH true [] eq_refl) as [Hf Hc]. split.
        { constructor; [|exact Hf]. rewrite forallb_rev. exact Hp. }
        cbn [List.concat]. rewrite Hc. reflexivity.
    + destruct (IH false (c :: piece)) as [Hf Hc].
      { cbn [forallb]. rewrite Ec, Hp. reflexivity. }
      split; [exact Hf|].
      rewrite Hc. cbn [rev]. rewrite <- app_assoc. reflexivity.
Qed.

(** X12.  Line 137 cuts the [viewBox] text into components that are never
    empty and hold neither a blank nor a comma, and it loses nothing:
    put together again, the components are the text with its blanks and
    commas removed.  So a text of blanks and commas alone has no
    component. *)
Theorem viewbox_components_wellformed (view_box : pystr) :
  Forall (fun component =>
            component <> []
            /\ forallb (fun c => negb (is_separator c)) component = true)
         (viewbox_components view_box)
  /\ List.concat (viewbox_components view_box)
     = filter (fun c => negb (is_separator c)) view_box
  /\ (forallb is_separator view_box = true -> viewbox_components view_box = []).
Proof.
  unfold viewbox_components.
  destruct (re_split_pieces is_separator (strip view_box) false [] eq_refl)
    as [Hf Hc].
  change (fun c : ascii => is_space c || is_comma c) with is_separator.
  set (pieces := re_split is_separator false [] (strip view_box)) in *.
  assert (Forall (fun component =>
                    component <> []
                    /\ forallb (fun c => negb (is_separator c)) component = true)
                 (filter is_nonempty pieces)) as Hwf.
  { apply Forall_forall. intros p Hin. apply filter_In in Hin as [Hin Hne].
    split; [intros ->; discriminate|].
    rewrite Forall_forall in Hf. exact (Hf p Hin). }
  assert (List.concat (filter is_nonempty pieces)
          = filter (fun c => negb (is_separator c)) view_box) as Hcat.
  { transitivity (List.concat pieces).
    - clear. induction pieces as [|p pieces IH]; [reflexivity|].
      cbn [filter List.concat]. destruct p; cbn [is_nonempty List.concat app].
      + exact IH.
      + rewrite IH. reflexivity.
    - rewrite Hc. cbn [rev app]. apply filter_strip.
      intros c Hs. unfold is_separator. rewrite Hs. reflexivity. }
  split; [exact Hwf|]. split; [exact Hcat|].
  intro Hall.
  destruct (filter is_nonempty pieces) as [|p ps] eqn:E; [reflexivity|].
  exfalso. inversion Hwf as [|? ? [Hne _] _]; subst.
  assert (filter (fun c => negb (is_separator c)) view_box = []) as Hnone.
  { clear - Hall. induction view_box as [|c s IH]; [reflexivity|].
    cbn [forallb] in Hall. apply andb_true_iff in Hall as [Hc Hall].
    cbn [filter]. rewrite Hc. cbn [negb]. exact (IH Hall). }
  rewrite Hnone in Hcat. cbn [List.concat] in Hcat.
  destruct p; [contradiction|discriminate].
Qed.

(** ** Configuration *)


Lemma is_sign_not_space (c : ascii) : is_sign c = true -> is_space c = false.
Proof.
  unfold is_sign. intro H. apply orb_true_iff in H as [H | H];
    apply Ascii.eqb_eq in H as ->; reflexivity.
Qed.










(** X14.  The service loads only with an [API_KEY] that is set and not empty,
    and a loaded service authorizes exactly the requests whose header
    is that key: no header, an empty header or any other text is
    refused. *)
Theorem service_key_contract (env : environ) :
  (forall settings,
      load_service env = Ok settings ->
      settings = load_settings env
      /\ exists key,
          dict_get env (lit "API_KEY") = Some key
          /\ key <> []
          /\ forall provided_key,
              _is_authorized settings provided_key = true
              <-> provided_key = Some key)
  /\ (dict_get env (lit "API_KEY") = None \/ dict_get env (lit "API_KEY") = Some [] ->
      exists msg, load_service env = Raise (OtherException msg)).
Proof.
  unfold load_service. cbn [load_settings api_key]. split.
  - intros settings.
    destruct (dict_get env (lit "API_KEY")) as [key|] eqn:Ek; cbn [option_map];
      [|discriminate].
    rewrite list_ascii_of_string_of_list_ascii.
    destruct key as [|c key]; cbn [truthy]; [discriminate|].
    intro H. injection H as <-. split; [reflexivity|].
    exists (c :: key). split; [reflexivity|]. split; [discriminate|].
    intro provided_key. unfold _is_authorized. cbn [load_settings api_key].
    rewrite Ek. cbn [option_map]. unfold lit.
    rewrite list_ascii_of_string_of_list_ascii.
    destruct provided_key as [p|]; [|split; discriminate].
    split.
    + intro H. apply andb_true_iff in H as [_ H].
      apply str_eqb_eq in H as ->. reflexivity.
    + intro H. injection H as ->. cbn [truthy andb].
      apply str_eqb_eq. reflexivity.
  - intros [-> | ->]; cbn; eexists; reflexivity.
Qed.

(** An environment that sets only the key. *)
Lemma service_key_contract_witness :
  load_service [(lit "API_KEY", lit "secret")]
  = Ok (load_settings [(lit "API_KEY", lit "secret")])
  /\ exists key,
      dict_get [(lit "API_KEY", lit "secret")] (lit "API_KEY") = Some key
      /\ key <> []
      /\ forall provided_key,
          _is_authorized (load_settings [(lit "API_KEY", lit "secret")]) provided_key
          = true
          <-> provided_key = Some key.
Proof.
  split; [reflexivity|].
  apply (proj1 (service_key_contract [(lit "API_KEY", lit "secret")])
               (load_settings [(lit "API_KEY", lit "secret")]) eq_refl).
Defined.

(** ** Pruner: the effect of the cutoff *)







(** ** The route: when a request is served *)



(** ** The size bounds of a service started without size variables *)


